(** * creeps.py: the Creep sprite

    A shallow embedding of class [Creep] of [creeps.py] (Python 2, pygame):
    its lifecycle state machine, the movement and wall bounce of [update],
    the random heading change, the hit test and the health bookkeeping of
    [mouse_click_event].

    Numbers.  Python ints are [Z]; the file mixes tabs and spaces in one
    block, which only Python 2 accepts, so [/] on two ints is floor
    division.  Python floats are modelled by exact rationals [Q]: the
    properties below are about comparisons, clamping and sign flips, none of
    which depends on rounding.  Times are integer milliseconds, as
    [pygame.time.Clock.tick] returns them, and mouse positions are integer
    pixels, as [pygame.mouse.get_pos] returns them.

    Effects.  A method takes [self] and returns the new [self]; a method
    that can raise returns it together with a [result].  The random draws
    of [update] are the nodes of a [Rand] tree. *)

From Stdlib Require Import ZArith QArith List Finite Bool Lia.
Import ListNotations.
Local Open Scope Z_scope.

(** ** Python builtins *)

Module Py.

(** [a / b] on two ints (Python 2): floor division. *)
Definition int_div (a b : Z) : Z := a / b.

(** [int(v)] on a float: truncation toward zero. *)
Definition int (v : Q) : Z := Z.quot (Qnum v) (Zpos (Qden v)).

(** [a < b] and [a > b] on numbers. *)
Definition lt (a b : Q) : bool := negb (Qle_bool b a).
Definition gt (a b : Q) : bool := lt b a.

(** Exceptions that the modelled code can raise. *)
Inductive exn := IndexError | AttributeError | InvalidAnimationError.

(** The outcome of a call: a returned value or a raised exception. *)
Inductive result (A : Type) :=
| Return (a : A)
| Raise (e : exn).
Arguments Return {A} a.
Arguments Raise {A} e.

End Py.
Import Py.

(** ** The random source

    [random.randint(lo, hi)] is an effect.  Code that draws is a tree whose
    nodes are the draws; the tree is run against a tape of raw values, or
    read as a finite distribution in which every integer of [lo..hi] is
    equally likely. *)

Inductive Rand (A : Type) :=
| Done (a : A)
| Randint (lo hi : Z) (k : Z -> Rand A).
Arguments Done {A} a.
Arguments Randint {A} lo hi k.

Fixpoint rbind {A B} (r : Rand A) (f : A -> Rand B) : Rand B :=
  match r with
  | Done a => f a
  | Randint lo hi k => Randint lo hi (fun n => rbind (k n) f)
  end.

Definition randint (lo hi : Z) : Rand Z := Randint lo hi (fun n => Done n).

Declare Scope rand_scope.
Delimit Scope rand_scope with rand.
Notation "v <- r ;; k" := (rbind r (fun v => k))
  (at level 61, r at next level, right associativity) : rand_scope.

(** A raw tape value is brought into [lo..hi]; a value already in the range
    is kept as it is. *)
Definition pick (lo hi raw : Z) : Z := lo + (raw - lo) mod (hi - lo + 1).

Fixpoint run {A} (r : Rand A) (tape : list Z) : A :=
  match r with
  | Done a => a
  | Randint lo hi k => run (k (pick lo hi (hd 0 tape))) (tl tape)
  end.

(** The integers [lo..hi] in increasing order. *)
Definition zrange (lo hi : Z) : list Z :=
  map (fun i => lo + Z.of_nat i) (seq 0 (Z.to_nat (hi - lo + 1))).

(** The distribution of outcomes, with the draws that lead to each. *)
Fixpoint law {A} (r : Rand A) : list (Q * (list Z * A)) :=
  match r with
  | Done a => [(1%Q, ([], a))]
  | Randint lo hi k =>
      flat_map
        (fun n => map (fun '(p, (ds, a)) => ((p / inject_Z (hi - lo + 1))%Q, (n :: ds, a)))
                      (law (k n)))
        (zrange lo hi)
  end.

(** The probability of an event on the draws and the outcome. *)
Definition prob {A} (ev : list Z -> A -> bool) (d : list (Q * (list Z * A))) : Q :=
  fold_right Qplus 0%Q
    (map fst (filter (fun '(_, (ds, a)) => ev ds a) d)).

(** ** vec2d *)

Record vec2d := Vec2d { x : Q; y : Q }.

(** [a + b] on two vectors ([+=] rebinds to the sum). *)
Definition vec_add (a b : vec2d) : vec2d :=
  Vec2d (x a + x b) (y a + y b).

(** ** pygame.Rect

    Integer rectangles.  [inflate] is pygame's: the offsets are halved with
    C's division, which truncates. *)

Record Rect := mkRect { left : Z; top : Z; width : Z; height : Z }.

Definition right (r : Rect) : Z := left r + width r.
Definition bottom (r : Rect) : Z := top r + height r.

Definition inflate (r : Rect) (dx dy : Z) : Rect :=
  mkRect (left r - Z.quot dx 2) (top r - Z.quot dy 2)
         (width r + dx) (height r + dy).

(** ** pygame.Surface *)

Definition Color := (Z * Z * Z * Z)%type.

(** [pix[3]] *)
Definition alpha (pix : Color) : Z := let '(_, _, _, a) := pix in a.

Record Surface := mkSurface {
  get_width : Z;
  get_height : Z;
  pixels : Z -> Z -> Color }.

Definition get_size (s : Surface) : Z * Z := (get_width s, get_height s).

(** [Surface.get_at((px, py))] raises [IndexError] outside the surface.
    pygame reads the coordinates as C ints and raises [OverflowError] on
    one that does not fit; that error is not modelled, and the statements
    that a hit test returns take the coordinates to fit ([fits_c_int]). *)
Definition get_at (s : Surface) (p : Z * Z) : result Color :=
  let '(px, py) := p in
  if (0 <=? px) && (px <? get_width s) && (0 <=? py) && (py <? get_height s)
  then Return (pixels s px py)
  else Raise IndexError.

(** ** SimpleAnimation

    Modelled from the spec: class [SimpleAnimation] of module
    [simpleanimation] is not part of [creeps.py].  The spec gives it frames,
    a frame duration, a start delay, an elapsed time and an [active] flag;
    [update] advances the elapsed time and does nothing once inactive;
    [active] turns false the instant the elapsed time reaches
    [start_delay + frame_duration * len(frames)]; an empty frame sequence is
    rejected at construction. *)

Record SimpleAnimation := mkSimpleAnimation {
  anim_pos : Q * Q;
  frames : list Surface;
  frame_duration_ms : Z;
  start_delay_ms : Z;
  elapsed_ms : Z;
  active : bool }.

Definition SimpleAnimation_init (pos : Q * Q) (images : list Surface)
    (frame_duration start_delay : Z) : result SimpleAnimation :=
  match images with
  | [] => Raise InvalidAnimationError
  | _ :: _ => Return (mkSimpleAnimation pos images frame_duration start_delay 0 true)
  end.

Definition anim_end (a : SimpleAnimation) : Z :=
  start_delay_ms a + frame_duration_ms a * Z.of_nat (length (frames a)).

Definition anim_update (a : SimpleAnimation) (dt : Z) : SimpleAnimation :=
  if active a then
    let e := elapsed_ms a + dt in
    mkSimpleAnimation (anim_pos a) (frames a) (frame_duration_ms a)
      (start_delay_ms a) e (negb (anim_end a <=? e))
  else a.

(** ** Creep: the data *)

(** [(ALIVE, EXPLODING, DEAD) = range(3)] *)
Inductive State := ALIVE | EXPLODING | DEAD.

(** The attributes of a creep.  [image_w] and [image_h] are first assigned
    by [update], and [explode_animation] by [_explode]: before that the
    attribute does not exist, and reading it raises [AttributeError].
    [killed] records that [Sprite.kill()] was called, which removes the
    sprite from every group it belongs to.  The screen is only drawn on and
    is left out. *)
Record Creep := mkCreep {
  speed : Q;
  field : Rect;
  base_image : Surface;
  image : Surface;
  explosion_images : list Surface;
  pos : vec2d;
  direction : vec2d;
  state : State;
  health : Z;
  _counter : Z;
  image_w : option Z;
  image_h : option Z;
  explode_animation : option SimpleAnimation;
  killed : bool }.

(** Attribute assignment, one function per assigned attribute. *)

Definition set_image (v : Surface) (c : Creep) : Creep :=
  mkCreep (speed c) (field c) (base_image c) v (explosion_images c) (pos c)
    (direction c) (state c) (health c) (_counter c) (image_w c) (image_h c)
    (explode_animation c) (killed c).

Definition set_pos (v : vec2d) (c : Creep) : Creep :=
  mkCreep (speed c) (field c) (base_image c) (image c) (explosion_images c) v
    (direction c) (state c) (health c) (_counter c) (image_w c) (image_h c)
    (explode_animation c) (killed c).

Definition set_direction (v : vec2d) (c : Creep) : Creep :=
  mkCreep (speed c) (field c) (base_image c) (image c) (explosion_images c)
    (pos c) v (state c) (health c) (_counter c) (image_w c) (image_h c)
    (explode_animation c) (killed c).

Definition set_state (v : State) (c : Creep) : Creep :=
  mkCreep (speed c) (field c) (base_image c) (image c) (explosion_images c)
    (pos c) (direction c) v (health c) (_counter c) (image_w c) (image_h c)
    (explode_animation c) (killed c).

Definition set_health (v : Z) (c : Creep) : Creep :=
  mkCreep (speed c) (field c) (base_image c) (image c) (explosion_images c)
    (pos c) (direction c) (state c) v (_counter c) (image_w c) (image_h c)
    (explode_animation c) (killed c).

Definition set__counter (v : Z) (c : Creep) : Creep :=
  mkCreep (speed c) (field c) (base_image c) (image c) (explosion_images c)
    (pos c) (direction c) (state c) (health c) v (image_w c) (image_h c)
    (explode_animation c) (killed c).

Definition set_image_size (w h : Z) (c : Creep) : Creep :=
  mkCreep (speed c) (field c) (base_image c) (image c) (explosion_images c)
    (pos c) (direction c) (state c) (health c) (_counter c) (Some w) (Some h)
    (explode_animation c) (killed c).

Definition set_explode_animation (v : SimpleAnimation) (c : Creep) : Creep :=
  mkCreep (speed c) (field c) (base_image c) (image c) (explosion_images c)
    (pos c) (direction c) (state c) (health c) (_counter c) (image_w c)
    (image_h c) (Some v) (killed c).

(** [Sprite.kill()] *)
Definition kill (c : Creep) : Creep :=
  mkCreep (speed c) (field c) (base_image c) (image c) (explosion_images c)
    (pos c) (direction c) (state c) (health c) (_counter c) (image_w c)
    (image_h c) (explode_animation c) true.

(** ** The collaborators that are not in [creeps.py]

    [vec2d.normalized], [vec2d.angle] (degrees), [vec2d.rotate] (degrees)
    and [pygame.transform.rotate] compute with square roots and
    trigonometry; they are parameters of the development.  Nothing is
    assumed about them. *)

Class Backend := {
  normalized : vec2d -> vec2d;
  angle : vec2d -> Q;
  rotate : vec2d -> Z -> vec2d;
  transform_rotate : Surface -> Q -> Surface }.

(** ** Creep: the methods *)

Section CreepMethods.

Context {backend : Backend}.

(** [Creep.__init__].  The position and the direction arrive as vectors;
    [_counter] is the class attribute, 0 until the first [+=]. *)
Definition Creep_init (creep_image : Surface) (explosion_images : list Surface)
    (field : Rect) (init_position init_direction : vec2d) (speed : Q) : Creep :=
  {| speed := speed;
     field := field;
     base_image := creep_image;
     image := creep_image;
     explosion_images := explosion_images;
     pos := init_position;
     direction := normalized init_direction;
     state := ALIVE;
     health := 15;
     _counter := 0;
     image_w := None;
     image_h := None;
     explode_animation := None;
     killed := false |}.

Definition is_alive (self : Creep) : bool :=
  match state self with
  | ALIVE | EXPLODING => true
  | DEAD => false
  end.

(** [Creep._change_direction] (lines 190-197). *)
Definition _change_direction (time_passed : Z) (self : Creep) : Rand Creep :=
  (let self := set__counter (_counter self + time_passed) self in
   r <- randint 400 500 ;;
   if _counter self >? r then
     k <- randint (-1) 1 ;;
     let self := set_direction (rotate (direction self) (45 * k)) self in
     Done (set__counter 0 self)
   else
     Done self)%rand.

(** The ALIVE branch of [update] up to the wall test (lines 95-115): the
    sprite is rotated to the heading, the position advances by the
    displacement, the sprite size is recorded, and the local
    [bounds_rect] is computed.  The product is exact here for every
    integer time; Python raises [OverflowError] on a time that does not fit
    a float, and the statements that [update] returns take the time to fit
    a C int, as [Clock.tick] answers it. *)
Definition advance (time_passed : Z) (self : Creep) : Creep * Rect :=
  let self :=
    set_image (transform_rotate (base_image self) (- angle (direction self))%Q) self in
  let displacement :=
    Vec2d (x (direction self) * speed self * inject_Z time_passed)%Q
          (y (direction self) * speed self * inject_Z time_passed)%Q in
  let self := set_pos (vec_add (pos self) displacement) self in
  let '(w, h) := get_size (image self) in
  let self := set_image_size w h self in
  let bounds_rect := inflate (field self) (- w) (- h) in
  (self, bounds_rect).

(** The wall test of [update] (lines 117-128): one [if]/[elif] chain. *)
Definition bounce (bounds_rect : Rect) (self : Creep) : Creep :=
  if Py.lt (x (pos self)) (inject_Z (left bounds_rect)) then
    let self := set_pos (Vec2d (inject_Z (left bounds_rect)) (y (pos self))) self in
    set_direction (Vec2d (x (direction self) * (-1))%Q (y (direction self))) self
  else if Py.gt (x (pos self)) (inject_Z (right bounds_rect)) then
    let self := set_pos (Vec2d (inject_Z (right bounds_rect)) (y (pos self))) self in
    set_direction (Vec2d (x (direction self) * (-1))%Q (y (direction self))) self
  else if Py.lt (y (pos self)) (inject_Z (top bounds_rect)) then
    let self := set_pos (Vec2d (x (pos self)) (inject_Z (top bounds_rect))) self in
    set_direction (Vec2d (x (direction self)) (y (direction self) * (-1))%Q) self
  else if Py.gt (y (pos self)) (inject_Z (bottom bounds_rect)) then
    let self := set_pos (Vec2d (x (pos self)) (inject_Z (bottom bounds_rect))) self in
    set_direction (Vec2d (x (direction self)) (y (direction self) * (-1))%Q) self
  else self.

(** [Creep.update] (lines 78-138). *)
Definition update (time_passed : Z) (self : Creep) : Rand (Creep * result unit) :=
  match state self with
  | ALIVE =>
      (self <- _change_direction time_passed self ;;
       let '(self, bounds_rect) := advance time_passed self in
       Done (bounce bounds_rect self, Return tt))%rand
  | EXPLODING =>
      match explode_animation self with
      | None => Done (self, Raise AttributeError)
      | Some a =>
          if active a then
            Done (set_explode_animation (anim_update a time_passed) self, Return tt)
          else
            Done (kill (set_state DEAD self), Return tt)
      end
  | DEAD => Done (self, Return tt)
  end.

(** [Creep._point_is_inside] (lines 199-211).  The sprite corner is
    [int(pos - size / 2)] with the integer half size; only [IndexError]
    is caught. *)
Definition _point_is_inside (point : Z * Z) (self : Creep) : result bool :=
  match image_w self, image_h self with
  | Some w, Some h =>
      let img_point :=
        (fst point - Py.int (x (pos self) - inject_Z (Py.int_div w 2))%Q,
         snd point - Py.int (y (pos self) - inject_Z (Py.int_div h 2))%Q) in
      match get_at (image self) img_point with
      | Return pix => Return (alpha pix >? 0)
      | Raise IndexError => Return false
      | Raise e => Raise e
      end
  | _, _ => Raise AttributeError
  end.

(** [Creep._explode] (lines 222-231). *)
Definition _explode (self : Creep) : Creep * result unit :=
  let self := set_state EXPLODING self in
  match explosion_images self with
  | [] => (self, Raise IndexError)
  | first :: _ =>
      let pos :=
        ((x (pos self) - inject_Z (Py.int_div (get_width first) 2))%Q,
         (y (pos self) - inject_Z (Py.int_div (get_height first) 2))%Q) in
      match SimpleAnimation_init pos (explosion_images self) 100 300 with
      | Return a => (set_explode_animation a self, Return tt)
      | Raise e => (self, Raise e)
      end
  end.

(** [Creep._decrease_health] (lines 213-220). *)
Definition _decrease_health (n : Z) (is_paused : bool) (self : Creep)
    : Creep * result unit :=
  if negb is_paused then
    let self := set_health (Z.max 0 (health self - n)) self in
    if health self =? 0 then _explode self else (self, Return tt)
  else (self, Return tt).

(** [Creep.mouse_click_event] (lines 171-175). *)
Definition mouse_click_event (pos : Z * Z) (is_paused : bool) (self : Creep)
    : Creep * result unit :=
  match _point_is_inside pos self with
  | Return true => _decrease_health 3 is_paused self
  | Return false => (self, Return tt)
  | Raise e => (self, Raise e)
  end.

(** The frame loop, as far as one creep sees it: a run of [update]
    calls, each with its time step and its tape of draws, and a run of
    unpaused clicks at one point.  An exception would end the program;
    here the creep is kept as the call left it. *)
Fixpoint updates (steps : list (Z * list Z)) (self : Creep) : Creep :=
  match steps with
  | [] => self
  | (time_passed, tape) :: rest =>
      updates rest (fst (run (update time_passed self) tape))
  end.

Fixpoint clicks (n : nat) (pos : Z * Z) (self : Creep) : Creep :=
  match n with
  | O => self
  | S n' => clicks n' pos (fst (mouse_click_event pos false self))
  end.

(** The rectangle [draw] blits the sprite to (lines 150-152): the sprite's
    own rectangle moved to [pos - size / 2], the offsets cut to ints. *)
Definition draw_rect (self : Creep) : result Rect :=
  match image_w self, image_h self with
  | Some w, Some h =>
      Return (mkRect (Py.int (x (pos self) - inject_Z (Py.int_div w 2))%Q)
                     (Py.int (y (pos self) - inject_Z (Py.int_div h 2))%Q)
                     (get_width (image self)) (get_height (image self)))
  | _, _ => Raise AttributeError
  end.

End CreepMethods.

(** [Rect.collidepoint]: the right and bottom edges are outside. *)
Definition collidepoint (r : Rect) (p : Z * Z) : bool :=
  (left r <=? fst p) && (fst p <? right r) &&
  (top r <=? snd p) && (snd p <? bottom r).

(** ** Vocabulary of the properties *)

Section Vocabulary.

Context {backend : Backend}.

(** The threshold and the turn that a tape yields. *)
Definition threshold_drawn (tape : list Z) : Z := pick 400 500 (hd 0 tape).
Definition turn_drawn (tape : list Z) : Z := pick (-1) 1 (hd 0 (tl tape)).

(** The creep just before the wall test, and the rectangle it is tested
    against. *)
Definition moved (dt : Z) (c : Creep) (tape : list Z) : Creep :=
  fst (advance dt (run (_change_direction dt c) tape)).

Definition bounds_rect (dt : Z) (c : Creep) (tape : list Z) : Rect :=
  snd (advance dt (run (_change_direction dt c) tape)).

(** The point of the sprite that a screen point falls on. *)
Definition sprite_local (point : Z * Z) (c : Creep) (w h : Z) : Z * Z :=
  (fst point - Py.int (x (pos c) - inject_Z (Py.int_div w 2))%Q,
   snd point - Py.int (y (pos c) - inject_Z (Py.int_div h 2))%Q).

Definition outside_pixels (s : Surface) (p : Z * Z) : Prop :=
  fst p < 0 \/ get_width s <= fst p \/ snd p < 0 \/ get_height s <= snd p.

(** An integer that pygame can read as a C int. *)
Definition fits_c_int (n : Z) : Prop := -2147483648 <= n < 2147483648.

(** The creep after a heading change that turns by [45 * k] degrees, and
    after one that does not turn. *)
Definition turned (dt : Z) (c : Creep) (k : Z) : Creep :=
  set__counter 0
    (set_direction (rotate (direction c) (45 * k))
       (set__counter (_counter c + dt) c)).

Definition not_turned (dt : Z) (c : Creep) : Creep :=
  set__counter (_counter c + dt) c.

(** The leaves of the law of [_change_direction] under one threshold. *)
Definition change_direction_leaves (dt : Z) (c : Creep) (thr : Z)
    : list (Q * (list Z * Creep)) :=
  if _counter c + dt >? thr then
    map (fun k => ((1 # 303)%Q, ([thr; k], turned dt c k))) [-1; 0; 1]
  else [((1 # 101)%Q, ([thr], not_turned dt c))].

(** Events on the draws. *)
Definition first_draw_is (n : Z) (ds : list Z) : bool :=
  match ds with
  | d :: _ => d =? n
  | [] => false
  end.

Definition draws_are (thr k : Z) (ds : list Z) : bool :=
  match ds with
  | [d1; d2] => (d1 =? thr) && (d2 =? k)
  | _ => false
  end.

End Vocabulary.

(** ** A concrete backend and concrete creeps

    Stand-ins for the collaborators, used to run the model on explicit
    inputs.  The trigonometric constants are the values Python prints for
    [cos(radians(45))] and [sin(radians(45))]. *)

Module Demo.

Definition cos45 : Q := 7071067811865476 # 10000000000000000.
Definition sin45 : Q := 7071067811865475 # 10000000000000000.

(** [cos] and [sin] of an angle in degrees, at the angles the creep
    turns by. *)
Definition cos_sin (degrees : Z) : Q * Q :=
  if degrees =? 45 then (cos45, sin45)
  else if degrees =? -45 then (cos45, (- sin45)%Q)
  else (1%Q, 0%Q).

(** [vec2d.rotate]: the rotation matrix applied to the vector. *)
Definition rotate (v : vec2d) (degrees : Z) : vec2d :=
  let '(c, s) := cos_sin degrees in
  Vec2d (x v * c - y v * s)%Q (x v * s + y v * c)%Q.

Definition sign (q : Q) : Z := Z.sgn (Qnum q).

(** [vec2d.angle] on the eight headings: read off the signs. *)
Definition angle (v : vec2d) : Q :=
  inject_Z
    match sign (x v), sign (y v) with
    | 1, 0 => 0 | 1, 1 => 45 | 0, 1 => 90 | -1, 1 => 135
    | -1, 0 => 180 | -1, -1 => -135 | 0, -1 => -90 | 1, -1 => -45
    | _, _ => 0
    end.

(** [vec2d.normalized] on vectors with components among -1, 0, 1. *)
Definition normalized (v : vec2d) : vec2d :=
  if (sign (x v) =? 0) || (sign (y v) =? 0) then v
  else Vec2d (inject_Z (sign (x v)) * sin45)%Q (inject_Z (sign (y v)) * sin45)%Q.

(** [pygame.transform.rotate]: the size of the result is the bounding box
    of the turned surface; the painting is kept. *)
Definition transform_rotate (s : Surface) (degrees : Q) : Surface :=
  let a := Z.abs (Py.int degrees) in
  if (a =? 0) || (a =? 180) then s
  else if a =? 90 then mkSurface (get_height s) (get_width s) (pixels s)
  else
    let side := (get_width s + get_height s) * 7071 / 10000 in
    mkSurface side side (pixels s).

#[export] Instance backend : Backend :=
  Build_Backend normalized angle rotate transform_rotate.

(** An opaque surface of the given size. *)
Definition solid (w h : Z) : Surface :=
  mkSurface w h (fun _ _ => (255, 255, 255, 255)).

(** The playing field of [run_game]. *)
Definition FIELD_RECT : Rect := mkRect 50 50 300 300.

Definition explosion_frames : list Surface := [solid 30 30; solid 30 30].

(** A creep as [run_game] creates them: a 20x20 sprite, speed 0.05. *)
Definition new_creep (position heading : vec2d) : Creep :=
  Creep_init (solid 20 20) explosion_frames FIELD_RECT position heading (5 # 100).

(** A creep in the open field, before and after its first frame. *)
Definition fresh : Creep := new_creep (Vec2d 100 100) (Vec2d 1 0).
Definition roaming : Creep := updates [(20, [500])] fresh.

(** The same creep after five unpaused hits on its centre, and four
    frames of 100 ms later. *)
Definition exploding : Creep := clicks 5 (101, 100) roaming.
Definition ending : Creep :=
  updates [(100, []); (100, []); (100, []); (100, [])] exploding.

(** Two frames into the explosion the creep is hit again; the explosion
    then runs to its end and the creep dies; the dead creep is hit once
    more. *)
Definition hit_again : Creep :=
  fst (mouse_click_event (101, 100) false
         (updates [(100, []); (100, [])] exploding)).
Definition dead : Creep :=
  updates [(100, []); (100, []); (100, []); (100, []); (100, []); (100, [])]
    hit_again.
Definition revived : Creep := fst (mouse_click_event (101, 100) false dead).

(** A creep heading for the bottom right corner of the field. *)
Definition cornered : Creep := new_creep (Vec2d 335 335) (Vec2d 1 1).

(** A creep with a 20x8 sprite at (100, 100), heading right, in a field
    whose inset right edge is at 120 both for the sprite as it is and for
    the sprite turned by 45 degrees. *)
Definition near_wall : Creep :=
  Creep_init (solid 20 8) explosion_frames (mkRect 0 0 130 200)
    (Vec2d 100 100) (Vec2d 1 0) (5 # 100).

End Demo.

(** ** Sequences of calls

    What a creep can become: it is constructed, then receives [update] and
    [mouse_click_event] calls in any order and with any arguments.  A call
    that raises leaves the creep as the exception found it. *)

Section Calls.

Context {backend : Backend}.

Inductive Call :=
| Update (time_passed : Z) (tape : list Z)
| Click (pos : Z * Z) (is_paused : bool).

Definition call (k : Call) (self : Creep) : Creep * result unit :=
  match k with
  | Update time_passed tape => run (update time_passed self) tape
  | Click pos is_paused => mouse_click_event pos is_paused self
  end.

Inductive reachable : Creep -> Prop :=
| reachable_init creep_image explosion_images field init_position init_direction speed :
    reachable (Creep_init creep_image explosion_images field
                 init_position init_direction speed)
| reachable_call c k :
    reachable c -> reachable (fst (call k c)).

End Calls.

(** ** Drawing

    The screen is write-only for the code modelled here: drawing is the
    list of commands sent to it, in order. *)

Inductive DrawCommand :=
| Blit (source : Surface) (dest : Rect)
| Fill (color : Color) (rect : Q * Q * Z * Z)
| DrawRect (color : Color) (rect : Rect)
| DrawAnimation (a : SimpleAnimation).

(** [Color('red')], [Color('green')], [Color('black')] *)
Definition red : Color := (255, 0, 0, 255).
Definition green : Color := (0, 255, 0, 255).
Definition black : Color := (0, 0, 0, 255).

(** [Creep.draw] (lines 140-169).  The offsets of [move] are evaluated
    first, so a creep without a recorded sprite size raises before anything
    is drawn.  The [draw_rect] attribute it assigns is read nowhere. *)
Definition draw (self : Creep) : result (list DrawCommand) :=
  match state self with
  | ALIVE =>
      match draw_rect self, image_h self with
      | Return r, Some h =>
          let health_bar_x := (x (pos self) - 7)%Q in
          let health_bar_y := (y (pos self) - inject_Z (Py.int_div h 2) - 6)%Q in
          Return [Blit (image self) r;
                  Fill red (health_bar_x, health_bar_y, 15, 4);
                  Fill green (health_bar_x, health_bar_y, health self, 4)]
      | Raise e, _ => Raise e
      | Return _, None => Raise AttributeError
      end
  | EXPLODING =>
      match explode_animation self with
      | Some a => Return [DrawAnimation a]
      | None => Raise AttributeError
      end
  | DEAD => Return []
  end.

(** [draw_rimmed_box] (lines 247-260): the rim first, when its width is not
    0, then the box over it. *)
Definition draw_rimmed_box (box_rect : Rect) (box_color : Color)
    (rim_width : Z) (rim_color : Color) : list DrawCommand :=
  (if rim_width =? 0 then []
   else [DrawRect rim_color
           (mkRect (left box_rect - rim_width) (top box_rect - rim_width)
                   (width box_rect + rim_width * 2)
                   (height box_rect + rim_width * 2))])
  ++ [DrawRect box_color box_rect].

(** [range(n)] *)
Definition range (n : Z) : list Z := zrange 0 (n - 1).

(** What [draw_background] does: it draws, or it divides by zero. *)
Inductive Drawn :=
| Commands (commands : list DrawCommand)
| ZeroDivisionError.

(** The tiles of [draw_background], row by row. *)
Definition tile_rects (tile_w tile_h nrows ncols : Z) : list Rect :=
  flat_map
    (fun row => map (fun col => mkRect (col * tile_w) (row * tile_h) tile_w tile_h)
                    (range ncols))
    (range nrows).

(** [draw_background] (lines 263-276), for a screen of the given size. *)
Definition draw_background (screen_w screen_h : Z) (tile_img : Surface)
    (field_rect : Rect) : Drawn :=
  let img_rect := mkRect 0 0 (get_width tile_img) (get_height tile_img) in
  if height img_rect =? 0 then ZeroDivisionError
  else
    let nrows := Py.int_div screen_h (height img_rect) + 1 in
    if width img_rect =? 0 then ZeroDivisionError
    else
      let ncols := Py.int_div screen_w (width img_rect) + 1 in
      Commands
        (map (Blit tile_img)
             (tile_rects (width img_rect) (height img_rect) nrows ncols)
         ++ draw_rimmed_box field_rect (109, 41, 1, 255) 4 black).

(** ** The game loop of [run_game] *)

Inductive Key := K_SPACE | K_other.

(** An event of [pygame.event.get()]; a mouse button event carries what
    [pygame.mouse.get_pressed()[0]] and [pygame.mouse.get_pos()] answer
    while it is handled. *)
Inductive Event :=
| QUIT
| KEYDOWN (key : Key)
| MOUSEBUTTONDOWN (left_pressed : bool) (mouse_pos : Z * Z)
| other_event.

(** How the loop ends: [exit_game], or an exception nobody catches. *)
Inductive Stop :=
| SystemExit
| Uncaught (e : exn)
| UncaughtZeroDivisionError
| UnboundLocalError.

(** The variables of the loop.  [creeps] is the sprite group; [last_time]
    is unbound until its first assignment. *)
Record Game := mkGame {
  creeps : list Creep;
  paused : bool;
  cumulative_time : Z;
  last_time : option Z }.

Definition SCREEN_WIDTH : Z := 500.
Definition SCREEN_HEIGHT : Z := 400.

(** [for creep in creeps: creep.mouse_click_event(pos, paused)].  The group
    is walked in list order; pygame promises no order, and the creeps do
    not read each other.  An exception ends the walk. *)
Fixpoint click_each (pos : Z * Z) (is_paused : bool) (group : list Creep)
    : list Creep * result unit :=
  match group with
  | [] => ([], Return tt)
  | creep :: rest =>
      match mouse_click_event pos is_paused creep with
      | (creep, Return _) =>
          let '(rest, r) := click_each pos is_paused rest in
          (creep :: rest, r)
      | (creep, Raise e) => (creep :: rest, Raise e)
      end
  end.

(** The event loop of a frame (lines 338-347). *)
Fixpoint handle_events (events : list Event) (g : Game) : Game * option Stop :=
  match events with
  | [] => (g, None)
  | QUIT :: _ => (g, Some SystemExit)
  | KEYDOWN K_SPACE :: rest =>
      handle_events rest
        (mkGame (creeps g) (negb (paused g)) (cumulative_time g) (last_time g))
  | MOUSEBUTTONDOWN true mouse_pos :: rest =>
      match click_each mouse_pos (paused g) (creeps g) with
      | (group, Return _) =>
          handle_events rest
            (mkGame group (paused g) (cumulative_time g) (last_time g))
      | (group, Raise e) =>
          (mkGame group (paused g) (cumulative_time g) (last_time g),
           Some (Uncaught e))
      end
  | _ :: rest => handle_events rest g
  end.

(** A group holds the sprites that were not killed. *)
Definition sprites (group : list Creep) : list Creep :=
  filter (fun creep => negb (killed creep)) group.

Section GameLoop.

Context {backend : Backend}.

(** [for creep in creeps: creep.update(time_passed); creep.draw()], each
    creep with its own tape of draws. *)
Fixpoint update_each (time_passed : Z) (tapes : list (list Z))
    (group : list Creep) : list Creep * result unit :=
  match group with
  | [] => ([], Return tt)
  | creep :: rest =>
      match run (update time_passed creep) (hd [] tapes) with
      | (creep, Return _) =>
          match draw creep with
          | Return _ =>
              let '(rest, r) := update_each time_passed (tl tapes) rest in
              (creep :: rest, r)
          | Raise e => (creep :: rest, Raise e)
          end
      | (creep, Raise e) => (creep :: rest, Raise e)
      end
  end.

(** One turn of the [while True] loop (lines 328-364), given the time
    [clock.tick] returns, the pending events and the draws of each creep.
    The message board only renders text and is left out. *)
Definition frame (bg_tile_img : Surface) (time_passed : Z)
    (events : list Event) (tapes : list (list Z)) (g : Game)
    : Game * option Stop :=
  let g :=
    mkGame (creeps g) (paused g) (cumulative_time g + time_passed)
      (last_time g) in
  let g :=
    if Z.of_nat (length (creeps g)) =? 0 then g
    else
      mkGame (creeps g) (paused g) (cumulative_time g)
        (Some (Py.int_div (cumulative_time g - cumulative_time g mod 1000)
                 1000)) in
  match handle_events events g with
  | (g, Some stop) => (g, Some stop)
  | (g, None) =>
      if negb (paused g) then
        match draw_background SCREEN_WIDTH SCREEN_HEIGHT bg_tile_img
                Demo.FIELD_RECT with
        | ZeroDivisionError => (g, Some UncaughtZeroDivisionError)
        | Commands _ =>
            match last_time g with
            | None => (g, Some UnboundLocalError)
            | Some _ =>
                match update_each time_passed tapes (creeps g) with
                | (group, Return _) =>
                    (mkGame (sprites group) (paused g) (cumulative_time g)
                       (last_time g), None)
                | (group, Raise e) =>
                    (mkGame (sprites group) (paused g) (cumulative_time g)
                       (last_time g), Some (Uncaught e))
                end
            end
        end
      else (g, None)
  end.

(** [random.choice] on a sequence that is not empty. *)
Definition choice {A} (first : A) (rest : list A) : Rand A :=
  (i <- randint 0 (Z.of_nat (length rest)) ;;
   Done (nth (Z.to_nat i) (first :: rest) first))%rand.

(** One turn of the loop that creates the creeps (lines 312-324). *)
Definition spawn_creep (creep_images : Surface * Surface * Surface)
    (explosion_images : list Surface) : Rand Creep :=
  (let '(blue, pink, gray) := creep_images in
   creep_image <- choice blue [pink; gray] ;;
   px <- randint (left Demo.FIELD_RECT) (right Demo.FIELD_RECT) ;;
   py <- randint (top Demo.FIELD_RECT) (bottom Demo.FIELD_RECT) ;;
   dx <- choice (-1) [1] ;;
   dy <- choice (-1) [1] ;;
   Done (Creep_init creep_image explosion_images Demo.FIELD_RECT
           (Vec2d (inject_Z px) (inject_Z py))
           (Vec2d (inject_Z dx) (inject_Z dy)) (5 # 100)))%rand.

End GameLoop.

(** ** Vocabulary of the invariants *)

(** What holds of every creep, whatever calls it received: the health is
    one of 0, 3, .., 15; the creep is ALIVE exactly while the health is
    positive; a DEAD creep was killed; the recorded sprite size, once
    there, is the size of the current image; a creep with explosion frames
    that left ALIVE owns an animation; a creep without a recorded sprite
    size is still ALIVE. *)
Definition creep_inv (c : Creep) : Prop :=
  (exists n, 0 <= n <= 5 /\ health c = 3 * n) /\
  (state c = ALIVE <-> 0 < health c) /\
  (state c = DEAD -> killed c = true) /\
  ((image_w c = None /\ image_h c = None) \/
   (image_w c = Some (get_width (image c)) /\
    image_h c = Some (get_height (image c)))) /\
  (explosion_images c <> [] -> state c <> ALIVE -> explode_animation c <> None) /\
  (image_w c = None -> state c = ALIVE).

(** The squared length of a vector. *)
Definition norm2 (v : vec2d) : Q := (x v * x v + y v * y v)%Q.

(** ** Vocabulary of the game loop *)

Section GameVocabulary.

Context {backend : Backend}.

(** The start of [run_game] (lines 292-324): three creeps, each with the
    explosion image and its quarter turn as frames, not paused, no time
    passed, [last_time] unbound. *)
Definition new_game (creep_images : Surface * Surface * Surface)
    (explosion_img : Surface) : Rand Game :=
  (let explosion_images := [explosion_img; transform_rotate explosion_img 90] in
   creep1 <- spawn_creep creep_images explosion_images ;;
   creep2 <- spawn_creep creep_images explosion_images ;;
   creep3 <- spawn_creep creep_images explosion_images ;;
   Done (mkGame [creep1; creep2; creep3] false 0 None))%rand.

(** A creep as the group holds it: it has explosion frames, was not killed
    and is not DEAD. *)
Definition in_group (c : Creep) : Prop :=
  reachable c /\ explosion_images c <> [] /\ killed c = false /\ state c <> DEAD.

(** What clicks and updates keep of a creep with explosion frames. *)
Definition playable (c : Creep) : Prop :=
  reachable c /\ explosion_images c <> [].

(** The first lines of a frame (lines 331-334): the clock. *)
Definition clocked (dt : Z) (g : Game) : Game :=
  let g := mkGame (creeps g) (paused g) (cumulative_time g + dt) (last_time g) in
  if Z.of_nat (length (creeps g)) =? 0 then g
  else mkGame (creeps g) (paused g) (cumulative_time g)
         (Some (Py.int_div (cumulative_time g - cumulative_time g mod 1000) 1000)).

(** A game whose creeps have all been updated once and whose clock shows a
    time. *)
Definition settled (g : Game) : Prop :=
  Forall (fun c => in_group c /\ image_w c <> None) (creeps g) /\
  last_time g <> None.

End GameVocabulary.

(** An event that neither quits, nor toggles the pause, nor clicks. *)
Definition quiet (event : Event) : bool :=
  match event with
  | QUIT | KEYDOWN K_SPACE | MOUSEBUTTONDOWN true _ => false
  | _ => true
  end.

Module DemoGame.

#[local] Existing Instance Demo.backend.

(** A game of three creeps, drawn from a tape, and its first frame of
    20 ms without events. *)
Definition tile : Surface := Demo.solid 64 64.

Definition started : Game :=
  run (new_game (Demo.solid 20 20, Demo.solid 20 20, Demo.solid 20 20)
         (Demo.solid 30 30))
      [0; 100; 150; 1; 1; 1; 60; 300; 0; 1; 2; 335; 335; 1; 1].

Definition first_frame : Game := fst (frame tile 20 [] [] started).

(** The game after a press on the space bar. *)
Definition halted : Game := fst (frame tile 20 [KEYDOWN K_SPACE] [] first_frame).

End DemoGame.

(** * Properties *)

(** ** The random source *)

(** A continuation that draws nothing sees only the value drawn so far. *)
Lemma run_rbind_det {A B} (r : Rand A) (f : A -> Rand B) (g : A -> B) :
  (forall a tape, run (f a) tape = g a) ->
  forall tape, run (rbind r f) tape = g (run r tape).
Proof.
  intros Hf; induction r as [a | lo hi k IH]; intros tape; simpl.
  - apply Hf.
  - apply IH.
Qed.

Lemma pick_range (lo hi raw : Z) : lo <= hi -> lo <= pick lo hi raw <= hi.
Proof.
  intros Hle; unfold pick.
  pose proof (Z.mod_pos_bound (raw - lo) (hi - lo + 1)); lia.
Qed.

Lemma pick_id (lo hi raw : Z) : lo <= raw <= hi -> pick lo hi raw = raw.
Proof.
  intros Hin; unfold pick.
  rewrite Z.mod_small; lia.
Qed.

(** ** Comparisons *)

Lemma lt_true (a b : Q) : Py.lt a b = true <-> (a < b)%Q.
Proof.
  unfold Py.lt; rewrite negb_true_iff; split.
  - intros Hb; apply Qnot_le_lt; intros Hle.
    apply Qle_bool_iff in Hle; congruence.
  - intros Hlt; destruct (Qle_bool b a) eqn:Hb; [|reflexivity].
    apply Qle_bool_iff in Hb; exfalso; exact (Qlt_not_le _ _ Hlt Hb).
Qed.

Lemma lt_false (a b : Q) : Py.lt a b = false <-> (b <= a)%Q.
Proof.
  unfold Py.lt; rewrite negb_false_iff; apply Qle_bool_iff.
Qed.

Lemma gt_true (a b : Q) : Py.gt a b = true <-> (b < a)%Q.
Proof. apply lt_true. Qed.

Lemma gt_false (a b : Q) : Py.gt a b = false <-> (a <= b)%Q.
Proof. apply lt_false. Qed.

Section CreepProperties.

Context {backend : Backend}.

(** *** The heading change, run on a tape *)

Lemma run_change_direction (dt : Z) (c : Creep) (tape : list Z) :
  run (_change_direction dt c) tape =
  if _counter c + dt >? threshold_drawn tape then
    set__counter 0
      (set_direction (rotate (direction c) (45 * turn_drawn tape))
         (set__counter (_counter c + dt) c))
  else set__counter (_counter c + dt) c.
Proof.
  unfold _change_direction, threshold_drawn, turn_drawn, randint.
  cbn [rbind run _counter set__counter].
  destruct (_counter c + dt >? pick 400 500 (hd 0 tape)); reflexivity.
Qed.

Lemma change_direction_frame (dt : Z) (c : Creep) (tape : list Z) :
  let c' := run (_change_direction dt c) tape in
  state c' = state c /\ health c' = health c /\ pos c' = pos c /\
  speed c' = speed c /\ field c' = field c /\ base_image c' = base_image c /\
  explode_animation c' = explode_animation c /\ killed c' = killed c.
Proof.
  cbv zeta; rewrite run_change_direction.
  destruct (_counter c + dt >? threshold_drawn tape); repeat split.
Qed.

(** *** The ALIVE update, step by step *)

Lemma run_update_ALIVE (dt : Z) (c : Creep) (tape : list Z) :
  state c = ALIVE ->
  run (update dt c) tape =
  (bounce (bounds_rect dt c tape) (moved dt c tape), Return tt).
Proof.
  intros Halive; unfold update; rewrite Halive.
  rewrite (run_rbind_det (_change_direction dt c) _
             (fun self => (bounce (snd (advance dt self)) (fst (advance dt self)),
                           Return tt))).
  - reflexivity.
  - intros a tape'; destruct (advance dt a); reflexivity.
Qed.

Lemma advance_frame (dt : Z) (c : Creep) :
  let m := fst (advance dt c) in
  state m = state c /\ health m = health c /\ direction m = direction c /\
  field m = field c /\ killed m = killed c /\
  explode_animation m = explode_animation c.
Proof. repeat split. Qed.

Lemma bounce_frame (b : Rect) (c : Creep) :
  state (bounce b c) = state c /\ health (bounce b c) = health c /\
  image (bounce b c) = image c /\ image_w (bounce b c) = image_w c /\
  image_h (bounce b c) = image_h c /\ field (bounce b c) = field c /\
  killed (bounce b c) = killed c /\
  explode_animation (bounce b c) = explode_animation c.
Proof.
  unfold bounce.
  destruct (Py.lt (x (pos c)) (inject_Z (left b)));
    [repeat split|].
  destruct (Py.gt (x (pos c)) (inject_Z (right b)));
    [repeat split|].
  destruct (Py.lt (y (pos c)) (inject_Z (top b)));
    [repeat split|].
  destruct (Py.gt (y (pos c)) (inject_Z (bottom b))); repeat split.
Qed.

(** *** update on a living creep *)

Lemma alive_update_frame (dt : Z) (c : Creep) (tape : list Z) :
  state c = ALIVE ->
  snd (run (update dt c) tape) = Return tt /\
  state (fst (run (update dt c) tape)) = ALIVE /\
  health (fst (run (update dt c) tape)) = health c.
Proof.
  intros Halive.
  rewrite (run_update_ALIVE dt c tape Halive); cbn [fst snd].
  destruct (bounce_frame (bounds_rect dt c tape) (moved dt c tape))
    as (Hst & Hh & _).
  destruct (change_direction_frame dt c tape) as (Hst' & Hh' & _).
  rewrite Hst, Hh; unfold moved.
  destruct (advance_frame dt (run (_change_direction dt c) tape))
    as (Hst'' & Hh'' & _).
  rewrite Hst'', Hh'', Hst', Hh'; auto.
Qed.

(** C10.  On a creep in state ALIVE, [update] returns normally and leaves
    the health and the state as they were, whatever the time step and the
    random draws; and a click that takes a creep out of ALIVE was
    delivered unpaused and passed the hit test. *)
Theorem update_alive_keeps_health_and_state (dt : Z) (c : Creep) (tape : list Z) :
  state c = ALIVE ->
  (let c' := fst (run (update dt c) tape) in
   snd (run (update dt c) tape) = Return tt /\
   state c' = ALIVE /\ health c' = health c) /\
  (forall point is_paused,
     state (fst (mouse_click_event point is_paused c)) <> ALIVE ->
     is_paused = false /\ _point_is_inside point c = Return true).
Proof.
  intros Halive; split.
  - exact (alive_update_frame dt c tape Halive).
  - intros point is_paused; unfold mouse_click_event.
    destruct (_point_is_inside point c) as [[|]|e]; cbn [fst];
      [|congruence..].
    unfold _decrease_health; destruct is_paused; cbn [negb fst];
      [congruence|auto].
Qed.

(** *** The wall test *)

(** C3.  The wall test of an ALIVE update corrects one axis at most, X
    first: a violated left or right edge clamps [pos.x] to that edge and
    multiplies [direction.x] by -1 while [pos.y] and [direction.y] stay as
    the move left them, in or out of bounds; [pos.y] is tested only when
    no X edge is violated, and then clamped with [direction.y] multiplied
    by -1; with nothing violated the creep is left as moved. *)
Theorem bounce_one_axis_x_first (dt : Z) (c : Creep) (tape : list Z) :
  state c = ALIVE ->
  let m := moved dt c tape in
  let b := bounds_rect dt c tape in
  let c' := fst (run (update dt c) tape) in
  ((x (pos m) < inject_Z (left b))%Q ->
     pos c' = Vec2d (inject_Z (left b)) (y (pos m)) /\
     direction c' = Vec2d (x (direction m) * (-1))%Q (y (direction m))) /\
  ((inject_Z (left b) <= x (pos m))%Q -> (inject_Z (right b) < x (pos m))%Q ->
     pos c' = Vec2d (inject_Z (right b)) (y (pos m)) /\
     direction c' = Vec2d (x (direction m) * (-1))%Q (y (direction m))) /\
  ((inject_Z (left b) <= x (pos m) <= inject_Z (right b))%Q ->
   (y (pos m) < inject_Z (top b))%Q ->
     pos c' = Vec2d (x (pos m)) (inject_Z (top b)) /\
     direction c' = Vec2d (x (direction m)) (y (direction m) * (-1))%Q) /\
  ((inject_Z (left b) <= x (pos m) <= inject_Z (right b))%Q ->
   (inject_Z (top b) <= y (pos m))%Q -> (inject_Z (bottom b) < y (pos m))%Q ->
     pos c' = Vec2d (x (pos m)) (inject_Z (bottom b)) /\
     direction c' = Vec2d (x (direction m)) (y (direction m) * (-1))%Q) /\
  ((inject_Z (left b) <= x (pos m) <= inject_Z (right b))%Q ->
   (inject_Z (top b) <= y (pos m) <= inject_Z (bottom b))%Q ->
     c' = m).
Proof.
  intros Halive m b c'; subst c'.
  rewrite (run_update_ALIVE dt c tape Halive); cbn [fst].
  fold m; fold b; unfold bounce.
  split; [|split; [|split; [|split]]].
  - intros Hx; apply lt_true in Hx; rewrite Hx; split; reflexivity.
  - intros Hl Hr; apply lt_false in Hl; apply gt_true in Hr.
    rewrite Hl, Hr; split; reflexivity.
  - intros [Hl Hr] Ht; apply lt_false in Hl; apply gt_false in Hr.
    apply lt_true in Ht; rewrite Hl, Hr, Ht; split; reflexivity.
  - intros [Hl Hr] Ht Hb; apply lt_false in Hl; apply gt_false in Hr.
    apply lt_false in Ht; apply gt_true in Hb.
    rewrite Hl, Hr, Ht, Hb; split; reflexivity.
  - intros [Hl Hr] [Ht Hb]; apply lt_false in Hl, Ht.
    apply gt_false in Hr, Hb.
    rewrite Hl, Hr, Ht, Hb; reflexivity.
Qed.

End CreepProperties.

(** ** Staying inside the field *)

Section Bounds.

Context {backend : Backend}.

(** The rectangle of the wall test is the field inflated by minus the
    size of the rotated sprite, the size that [update] records. *)
Lemma bounds_rect_of_sprite (dt : Z) (c : Creep) (tape : list Z) :
  state c = ALIVE ->
  let c' := fst (run (update dt c) tape) in
  image_w c' = Some (get_width (image c')) /\
  image_h c' = Some (get_height (image c')) /\
  bounds_rect dt c tape =
    inflate (field c') (- get_width (image c')) (- get_height (image c')).
Proof.
  intros Halive; cbv zeta.
  rewrite (run_update_ALIVE dt c tape Halive); cbn [fst].
  destruct (bounce_frame (bounds_rect dt c tape) (moved dt c tape))
    as (_ & _ & Himg & Hw & Hh & Hf & _).
  rewrite Himg, Hw, Hh, Hf.
  repeat split.
Qed.


End Bounds.

(** ** Clicks *)

Section Clicks.

(** A click changes nothing that the hit test reads. *)
Lemma click_keeps_hit_test (point q : Z * Z) (is_paused : bool) (c : Creep) :
  _point_is_inside point (fst (mouse_click_event q is_paused c)) =
  _point_is_inside point c.
Proof.
  unfold mouse_click_event.
  destruct (_point_is_inside q c) as [[|]|e]; [|reflexivity..].
  unfold _decrease_health; destruct is_paused; cbn [negb]; [reflexivity|].
  cbn [health set_health].
  destruct (Z.max 0 (health c - 3) =? 0); [|reflexivity].
  unfold _explode; cbn [explosion_images set_state set_health].
  destruct (explosion_images c); reflexivity.
Qed.

(** The health after [n] unpaused hits at a point that passes the hit
    test. *)
Lemma hit_health (point : Z * Z) (c : Creep) :
  _point_is_inside point c = Return true ->
  health (fst (mouse_click_event point false c)) = Z.max 0 (health c - 3).
Proof.
  intros Hhit; unfold mouse_click_event; rewrite Hhit.
  unfold _decrease_health; cbn [negb health set_health].
  destruct (Z.max 0 (health c - 3) =? 0); [|reflexivity].
  unfold _explode; cbn [explosion_images set_state set_health].
  destruct (explosion_images c); reflexivity.
Qed.

Lemma health_after_hits (n : nat) (point : Z * Z) (c : Creep) :
  _point_is_inside point c = Return true ->
  health (clicks n point c) =
  match n with
  | O => health c
  | S _ => Z.max 0 (health c - 3 * Z.of_nat n)
  end.
Proof.
  revert c; induction n as [|n IH]; intros c Hhit; [reflexivity|].
  cbn [clicks]; rewrite IH by (rewrite click_keeps_hit_test; exact Hhit).
  rewrite (hit_health point c Hhit).
  destruct n; lia.
Qed.

(** Before the first [update] the sprite size is not recorded, and the hit
    test raises [AttributeError], which [mouse_click_event] lets through;
    the creep is left as it was. *)
Lemma click_before_first_update (point : Z * Z) (is_paused : bool) (c : Creep) :
  image_w c = None ->
  mouse_click_event point is_paused c = (c, Raise AttributeError).
Proof.
  intros Hw; unfold mouse_click_event, _point_is_inside; rewrite Hw.
  reflexivity.
Qed.

(** C5.  A paused click leaves the creep exactly as it was, whatever the
    point: the health, the state and every other attribute. *)
Theorem paused_click_changes_nothing (point : Z * Z) (c : Creep) :
  fst (mouse_click_event point true c) = c.
Proof.
  unfold mouse_click_event.
  destruct (_point_is_inside point c) as [[|]|e]; reflexivity.
Qed.

Lemma get_at_outside (s : Surface) (p : Z * Z) :
  outside_pixels s p -> get_at s p = Raise IndexError.
Proof.
  destruct p as [px py]; unfold outside_pixels, get_at; cbn [fst snd].
  intros Hout.
  destruct (0 <=? px) eqn:E1; [|reflexivity].
  destruct (px <? get_width s) eqn:E2; [|reflexivity].
  destruct (0 <=? py) eqn:E3; [|reflexivity].
  destruct (py <? get_height s) eqn:E4; [|reflexivity].
  apply Z.leb_le in E1, E3; apply Z.ltb_lt in E2, E4; lia.
Qed.

(** Where the hit test answers a miss.  On a creep whose sprite size is
    recorded, a point whose sprite-local coordinate fits a C int and is
    outside the pixels of the sprite is a miss, not an error, and the click
    leaves the creep as it was; so does every such point outside the
    rectangle the sprite is drawn in. *)
Theorem point_outside_sprite_is_a_miss (point : Z * Z) (c : Creep) (w h : Z) :
  image_w c = Some w ->
  image_h c = Some h ->
  fits_c_int (fst (sprite_local point c w h)) ->
  fits_c_int (snd (sprite_local point c w h)) ->
  (outside_pixels (image c) (sprite_local point c w h) ->
     _point_is_inside point c = Return false /\
     forall is_paused, mouse_click_event point is_paused c = (c, Return tt)) /\
  (forall r, draw_rect c = Return r -> collidepoint r point = false ->
     _point_is_inside point c = Return false /\
     forall is_paused,
       health (fst (mouse_click_event point is_paused c)) = health c).
Proof.
  intros Hw Hh _ _.
  assert (Hmiss : outside_pixels (image c) (sprite_local point c w h) ->
                  _point_is_inside point c = Return false).
  { intros Hout; unfold _point_is_inside; rewrite Hw, Hh.
    fold (sprite_local point c w h).
    rewrite (get_at_outside _ _ Hout); reflexivity. }
  split.
  - intros Hout; split; [exact (Hmiss Hout)|].
    intros is_paused; unfold mouse_click_event.
    rewrite (Hmiss Hout); reflexivity.
  - intros r Hr Hcol.
    assert (Hout : outside_pixels (image c) (sprite_local point c w h)).
    { unfold draw_rect in Hr; rewrite Hw, Hh in Hr.
      injection Hr as Hr; subst r.
      unfold collidepoint, right, bottom in Hcol; cbn [left top width height] in Hcol.
      unfold outside_pixels, sprite_local; cbn [fst snd].
      repeat rewrite andb_false_iff in Hcol.
      rewrite !Z.leb_gt, !Z.ltb_ge in Hcol; lia. }
    split; [exact (Hmiss Hout)|].
    intros is_paused; unfold mouse_click_event.
    rewrite (Hmiss Hout); reflexivity.
Qed.

(** C4.  An unpaused click that passes the hit test lowers the health by
    3, not below 0: from 15 the healths are 15, 12, 9, 6, 3, 0.  While the
    health stays positive nothing else changes.  On the call that brings
    it to 0 the state becomes EXPLODING, and, the creep having explosion
    frames, the explosion animation is created at the current position
    minus the integer half size of the first frame, over those frames,
    with frame duration 100 and start delay 300, not yet started. *)
Theorem hit_lowers_health_and_explodes_at_zero (point : Z * Z) (c : Creep) :
  _point_is_inside point c = Return true ->
  let c' := fst (mouse_click_event point false c) in
  health c' = Z.max 0 (health c - 3) /\
  (health c = 15 ->
     map (fun n => health (clicks n point c)) [0; 1; 2; 3; 4; 5]%nat
     = [15; 12; 9; 6; 3; 0]) /\
  (0 < health c' ->
     mouse_click_event point false c = (set_health (health c - 3) c, Return tt)) /\
  (health c' = 0 ->
     state c' = EXPLODING /\ pos c' = pos c /\
     forall first rest, explosion_images c = first :: rest ->
       snd (mouse_click_event point false c) = Return tt /\
       explode_animation c' =
         Some {| anim_pos :=
                   ((x (pos c) - inject_Z (Py.int_div (get_width first) 2))%Q,
                    (y (pos c) - inject_Z (Py.int_div (get_height first) 2))%Q);
                 frames := explosion_images c;
                 frame_duration_ms := 100;
                 start_delay_ms := 300;
                 elapsed_ms := 0;
                 active := true |}).
Proof.
  intros Hhit c'.
  assert (Hrun : mouse_click_event point false c =
                 let c1 := set_health (Z.max 0 (health c - 3)) c in
                 if Z.max 0 (health c - 3) =? 0 then _explode c1
                 else (c1, Return tt)).
  { unfold mouse_click_event; rewrite Hhit; reflexivity. }
  assert (Hh : health c' = Z.max 0 (health c - 3))
    by exact (hit_health point c Hhit).
  split; [exact Hh|].
  split; [|split].
  - intros H15; cbn [map].
    rewrite !(fun n => health_after_hits n point c Hhit), H15.
    reflexivity.
  - intros Hpos; rewrite Hh in Hpos; rewrite Hrun; cbv zeta.
    destruct (Z.max 0 (health c - 3) =? 0) eqn:E.
    + apply Z.eqb_eq in E; lia.
    + replace (Z.max 0 (health c - 3)) with (health c - 3) by lia.
      reflexivity.
  - intros Hzero; rewrite Hh in Hzero; subst c'; rewrite Hrun; cbv zeta.
    rewrite Hzero; cbn [Z.eqb].
    unfold _explode; cbn [explosion_images set_state set_health pos].
    destruct (explosion_images c) as [|img imgs] eqn:Himgs.
    + split; [reflexivity|]; split; [reflexivity|].
      intros first rest Hcons; discriminate Hcons.
    + split; [reflexivity|]; split; [reflexivity|].
      intros first rest Hcons; injection Hcons as Hf Hr; subst img imgs.
      split; reflexivity.
Qed.

End Clicks.

(** ** The lifecycle *)

Section Lifecycle.

Context {backend : Backend}.

Lemma dead_update_noop (dt : Z) (c : Creep) (tape : list Z) :
  state c = DEAD -> run (update dt c) tape = (c, Return tt).
Proof. intros Hdead; unfold update; rewrite Hdead; reflexivity. Qed.

Lemma dead_updates_noop (steps : list (Z * list Z)) (c : Creep) :
  state c = DEAD -> updates steps c = c.
Proof.
  intros Hdead; induction steps as [|[dt tape] rest IH]; [reflexivity|].
  cbn [updates]; rewrite (dead_update_noop dt c tape Hdead); exact IH.
Qed.

(** [update] moves the state forward by one step at most, and only from
    EXPLODING to DEAD. *)
Lemma update_state_step (dt : Z) (c : Creep) (tape : list Z) :
  let c' := fst (run (update dt c) tape) in
  state c' = state c \/ (state c = EXPLODING /\ state c' = DEAD).
Proof.
  cbv zeta; destruct (state c) eqn:Hst.
  - left.
    destruct (alive_update_frame dt c tape Hst) as (_ & H & _).
    exact H.
  - unfold update; rewrite Hst.
    destruct (explode_animation c) as [a|]; [|left; exact Hst].
    destruct (active a); [left; exact Hst | right; split; reflexivity].
  - left; rewrite (dead_update_noop dt c tape Hst); exact Hst.
Qed.

(** A click leaves the state as it is or sets it to EXPLODING, whatever
    the state was. *)
Lemma click_state_step (point : Z * Z) (is_paused : bool) (c : Creep) :
  let c' := fst (mouse_click_event point is_paused c) in
  state c' = state c \/ state c' = EXPLODING.
Proof.
  cbv zeta; unfold mouse_click_event.
  destruct (_point_is_inside point c) as [[|]|e]; [|left; reflexivity..].
  unfold _decrease_health; destruct is_paused; cbn [negb];
    [left; reflexivity|].
  cbn [health set_health].
  destruct (Z.max 0 (health c - 3) =? 0); [|left; reflexivity].
  right; unfold _explode; cbn [explosion_images set_state set_health].
  destruct (explosion_images c); reflexivity.
Qed.

(** C9, as the code has it.  An update of an EXPLODING creep whose
    animation is active hands the time step to the animation and changes
    nothing else: the state stays EXPLODING and the creep is not killed,
    also when that step ends the animation.  An update that finds the
    animation inactive leaves the animation alone, sets the state to DEAD
    and kills the sprite.  From then on every update returns the creep
    unchanged. *)
Theorem exploding_update_follows_animation
    (dt : Z) (c : Creep) (a : SimpleAnimation) (tape : list Z) :
  state c = EXPLODING ->
  explode_animation c = Some a ->
  (active a = true ->
     run (update dt c) tape
     = (set_explode_animation (anim_update a dt) c, Return tt) /\
     state (fst (run (update dt c) tape)) = EXPLODING /\
     killed (fst (run (update dt c) tape)) = killed c) /\
  (active a = false ->
     run (update dt c) tape = (kill (set_state DEAD c), Return tt) /\
     state (fst (run (update dt c) tape)) = DEAD /\
     killed (fst (run (update dt c) tape)) = true /\
     explode_animation (fst (run (update dt c) tape)) = Some a /\
     forall steps,
       updates steps (fst (run (update dt c) tape))
       = fst (run (update dt c) tape)).
Proof.
  intros Hst Ha; unfold update; rewrite Hst, Ha; split; intros Hact;
    rewrite Hact; cbn [run fst].
  - repeat split; exact Hst.
  - repeat split; [exact Ha|].
    intros steps; apply dead_updates_noop; reflexivity.
Qed.

End Lifecycle.

(** ** The heading change *)

(** *** Probabilities over a law *)

Lemma prob_cons {A} (ev : list Z -> A -> bool) (p : Q) (ds : list Z) (a : A)
    (d : list (Q * (list Z * A))) :
  prob ev ((p, (ds, a)) :: d) = if ev ds a then (p + prob ev d)%Q else prob ev d.
Proof. unfold prob; cbn [filter]; destruct (ev ds a); reflexivity. Qed.

Lemma prob_app {A} (ev : list Z -> A -> bool) (d1 d2 : list (Q * (list Z * A))) :
  (prob ev (d1 ++ d2) == prob ev d1 + prob ev d2)%Q.
Proof.
  induction d1 as [|[p [ds a]] d1 IH].
  - cbn [app]; unfold prob at 2; cbn; rewrite Qplus_0_l; reflexivity.
  - cbn [app]; rewrite !prob_cons; destruct (ev ds a); [|exact IH].
    rewrite IH; apply Qplus_assoc.
Qed.

Lemma prob_flat_map_none {A B} (ev : list Z -> A -> bool)
    (g : B -> list (Q * (list Z * A))) (l : list B) :
  (forall n, In n l -> (prob ev (g n) == 0)%Q) ->
  (prob ev (flat_map g l) == 0)%Q.
Proof.
  induction l as [|n l IH]; intros Hnone; [reflexivity|].
  cbn [flat_map]; rewrite prob_app, Hnone by (left; reflexivity).
  rewrite IH by (intros m Hm; apply Hnone; right; exact Hm).
  reflexivity.
Qed.

(** When one branch only meets the event, its probability is that of the
    event. *)
Lemma prob_flat_map_one {A B} (ev : list Z -> A -> bool)
    (g : B -> list (Q * (list Z * A))) (l : list B) (n0 : B) :
  NoDup l -> In n0 l ->
  (forall n, In n l -> n <> n0 -> (prob ev (g n) == 0)%Q) ->
  (prob ev (flat_map g l) == prob ev (g n0))%Q.
Proof.
  induction l as [|n l IH]; intros Hnd Hin Hother; [destruct Hin|].
  inversion Hnd as [|n' l' Hnotin Hnd']; subst.
  cbn [flat_map]; rewrite prob_app.
  destruct Hin as [Heq | Hin].
  - subst n0; rewrite prob_flat_map_none; [apply Qplus_0_r|].
    intros m Hm; apply Hother; [right; exact Hm|].
    intros Heq; subst m; exact (Hnotin Hm).
  - rewrite Hother, IH, Qplus_0_l; try reflexivity; try assumption.
    + intros m Hm Hne; apply Hother; [right; exact Hm | exact Hne].
    + left; reflexivity.
    + intros Heq; subst n0; exact (Hnotin Hin).
Qed.

Lemma in_zrange (lo hi n : Z) : In n (zrange lo hi) <-> lo <= n <= hi.
Proof.
  unfold zrange; rewrite in_map_iff; split.
  - intros (i & Hi & Hin); apply in_seq in Hin; lia.
  - intros Hn; exists (Z.to_nat (n - lo)); split; [lia|].
    apply in_seq; lia.
Qed.

Lemma NoDup_zrange (lo hi : Z) : NoDup (zrange lo hi).
Proof.
  unfold zrange; apply Injective_map_NoDup; [|apply seq_NoDup].
  intros i j Hij; lia.
Qed.

Section HeadingChange.

Context {backend : Backend}.

Lemma law_change_direction (dt : Z) (c : Creep) :
  law (_change_direction dt c)
  = flat_map (change_direction_leaves dt c) (zrange 400 500).
Proof.
  unfold _change_direction, randint; cbn [rbind law].
  apply flat_map_ext; intros thr.
  unfold change_direction_leaves; cbn [_counter set__counter].
  destruct (_counter c + dt >? thr); reflexivity.
Qed.

Lemma prob_threshold (dt : Z) (c : Creep) (thr : Z) :
  400 <= thr <= 500 ->
  (prob (fun ds _ => first_draw_is thr ds) (law (_change_direction dt c))
   == 1 # 101)%Q.
Proof.
  intros Hthr; rewrite law_change_direction.
  rewrite (prob_flat_map_one _ _ _ thr (NoDup_zrange 400 500)
             (proj2 (in_zrange 400 500 thr) Hthr)).
  - unfold change_direction_leaves.
    destruct (_counter c + dt >? thr); cbn [map]; rewrite !prob_cons;
      cbn [first_draw_is]; rewrite Z.eqb_refl; reflexivity.
  - intros n _ Hne; apply Z.eqb_neq in Hne.
    unfold change_direction_leaves.
    destruct (_counter c + dt >? n); cbn [map]; rewrite !prob_cons;
      cbn [first_draw_is]; rewrite Hne; reflexivity.
Qed.

Lemma prob_turn (dt : Z) (c : Creep) (thr k : Z) :
  400 <= thr <= 500 -> thr < _counter c + dt -> -1 <= k <= 1 ->
  (prob (fun ds _ => draws_are thr k ds) (law (_change_direction dt c))
   == (1 # 101) * (1 # 3))%Q.
Proof.
  intros Hthr Hexceeds Hk; rewrite law_change_direction.
  rewrite (prob_flat_map_one _ _ _ thr (NoDup_zrange 400 500)
             (proj2 (in_zrange 400 500 thr) Hthr)).
  - unfold change_direction_leaves.
    replace (_counter c + dt >? thr) with true by (symmetry; apply Z.gtb_lt; lia).
    cbn [map]; rewrite !prob_cons; cbn [draws_are]; rewrite Z.eqb_refl.
    assert (Hcases : k = -1 \/ k = 0 \/ k = 1) by lia.
    destruct Hcases as [-> | [-> | ->]]; reflexivity.
  - intros n _ Hne; apply Z.eqb_neq in Hne.
    unfold change_direction_leaves.
    destruct (_counter c + dt >? n); cbn [map]; rewrite !prob_cons;
      cbn [draws_are]; rewrite ?Hne; reflexivity.
Qed.

(** A sum that does not exceed the drawn threshold keeps the heading. *)
Lemma heading_kept_below_threshold (dt : Z) (c : Creep) (tape : list Z) :
  _counter c + dt <= threshold_drawn tape ->
  direction (run (_change_direction dt c) tape) = direction c.
Proof.
  intros Hle; rewrite run_change_direction.
  destruct (_counter c + dt >? threshold_drawn tape) eqn:E;
    [apply Z.gtb_lt in E; lia | reflexivity].
Qed.

(** C7.  [_change_direction] adds the time step to the timer and compares
    the sum with a threshold that is drawn at every call: every run draws
    a threshold of 400..500; a sum above it turns the heading by 45 times
    a turn of -1, 0 or 1 and resets the timer to 0; otherwise the heading
    is kept and the timer holds the sum.  Every threshold and every turn
    can be drawn.  Under the uniform reading of [randint] each threshold
    of 400..500 has probability 1/101, and with a threshold below the sum
    each of the three turns has probability 1/3 of that. *)
Theorem heading_change_policy (dt : Z) (c : Creep) :
  let t := _counter c + dt in
  (forall tape,
     let thr := threshold_drawn tape in
     let k := turn_drawn tape in
     400 <= thr <= 500 /\
     (45 * k = -45 \/ 45 * k = 0 \/ 45 * k = 45) /\
     (thr < t -> run (_change_direction dt c) tape = turned dt c k) /\
     (t <= thr -> run (_change_direction dt c) tape = not_turned dt c)) /\
  (forall thr k, 400 <= thr <= 500 -> -1 <= k <= 1 ->
     threshold_drawn [thr; k] = thr /\ turn_drawn [thr; k] = k) /\
  (forall thr, 400 <= thr <= 500 ->
     (prob (fun ds _ => first_draw_is thr ds) (law (_change_direction dt c))
      == 1 # 101)%Q) /\
  (forall thr k, 400 <= thr <= 500 -> thr < t -> -1 <= k <= 1 ->
     (prob (fun ds _ => draws_are thr k ds) (law (_change_direction dt c))
      == (1 # 101) * (1 # 3))%Q /\
     In ((1 # 303)%Q, ([thr; k], turned dt c k))
        (law (_change_direction dt c))) /\
  (forall thr, 400 <= thr <= 500 -> t <= thr ->
     In ((1 # 101)%Q, ([thr], not_turned dt c))
        (law (_change_direction dt c))) /\
  (forall k, _counter (turned dt c k) = 0 /\
             direction (turned dt c k) = rotate (direction c) (45 * k)) /\
  (_counter (not_turned dt c) = t /\
   direction (not_turned dt c) = direction c).
Proof.
  intros t.
  split; [|split; [|split; [|split; [|split; [|split]]]]].
  - intros tape thr k.
    assert (Hthr : 400 <= thr <= 500) by (apply pick_range; lia).
    assert (Hk : -1 <= k <= 1) by (apply pick_range; lia).
    split; [exact Hthr|]; split; [lia|].
    rewrite run_change_direction; fold thr; fold k; fold t.
    split; intros Hcmp.
    + replace (t >? thr) with true by (symmetry; apply Z.gtb_lt; lia).
      reflexivity.
    + destruct (t >? thr) eqn:E; [apply Z.gtb_lt in E; lia | reflexivity].
  - intros thr k Hthr Hk; unfold threshold_drawn, turn_drawn; cbn [hd tl].
    rewrite !pick_id by lia; split; reflexivity.
  - intros thr Hthr; apply prob_threshold; exact Hthr.
  - intros thr k Hthr Hexceeds Hk.
    split; [apply prob_turn; assumption|].
    rewrite law_change_direction; apply in_flat_map.
    exists thr; split; [apply in_zrange; exact Hthr|].
    unfold change_direction_leaves; fold t.
    replace (t >? thr) with true by (symmetry; apply Z.gtb_lt; lia).
    apply (in_map (fun k0 => ((1 # 303)%Q, ([thr; k0], turned dt c k0)))).
    cbn [In]; lia.
  - intros thr Hthr Hbelow.
    rewrite law_change_direction; apply in_flat_map.
    exists thr; split; [apply in_zrange; exact Hthr|].
    unfold change_direction_leaves; fold t.
    destruct (t >? thr) eqn:E; [apply Z.gtb_lt in E; lia|].
    left; reflexivity.
  - intros k; split; reflexivity.
  - split; reflexivity.
Qed.

End HeadingChange.

(** ** The right wall, end to end *)

Section RightWall.

Context {backend : Backend}.

(** C8, as the code has it.  A living creep at (100, 100) with heading
    (1, 0) and speed 0.05 whose heading-change step leaves the heading at
    (1, 0), updated by 500 ms against an inset rectangle with its right
    edge at 120 and its left edge not beyond, moves by 25 px along X and
    not along Y, is clamped to [pos.x = 120], and ends with heading
    (-1, 0). *)
Theorem update_clamps_at_right_edge (c : Creep) (tape : list Z) :
  state c = ALIVE ->
  pos c = Vec2d 100 100 ->
  direction c = Vec2d 1 0 ->
  (speed c == 5 # 100)%Q ->
  direction (run (_change_direction 500 c) tape) = Vec2d 1 0 ->
  let c' := fst (run (update 500 c) tape) in
  let b := inflate (field c') (- get_width (image c')) (- get_height (image c')) in
  right b = 120 ->
  left b <= right b ->
  (x (pos (moved 500 c tape)) - x (pos c) == 25)%Q /\
  (y (pos (moved 500 c tape)) - y (pos c) == 0)%Q /\
  x (pos c') = 120%Q /\
  direction c' = Vec2d (-1) 0.
Proof.
  intros Halive Hpos Hdir Hspeed Hkept c' b.
  destruct (bounds_rect_of_sprite 500 c tape Halive) as (_ & _ & Hb).
  fold c' in Hb; fold b in Hb.
  intros Hright Hleft.
  destruct (change_direction_frame 500 c tape) as (_ & _ & Hp & Hs & _).
  assert (Hmx : (x (pos (moved 500 c tape)) == 125)%Q).
  { unfold moved, advance; cbn [fst get_size pos set_pos set_image_size
      set_image direction speed vec_add x].
    rewrite Hkept, Hp, Hs, Hpos; cbn [x]; rewrite Hspeed; reflexivity. }
  assert (Hmy : (y (pos (moved 500 c tape)) == 100)%Q).
  { unfold moved, advance; cbn [fst get_size pos set_pos set_image_size
      set_image direction speed vec_add y].
    rewrite Hkept, Hp, Hs, Hpos; cbn [y]; rewrite Hspeed; reflexivity. }
  assert (Hmd : direction (moved 500 c tape) = Vec2d 1 0).
  { unfold moved; destruct (advance_frame 500 (run (_change_direction 500 c) tape))
      as (_ & _ & Hd & _).
    rewrite Hd; exact Hkept. }
  split; [rewrite Hmx, Hpos; reflexivity|].
  split; [rewrite Hmy, Hpos; reflexivity|].
  subst c'; revert Hb.
  rewrite (run_update_ALIVE 500 c tape Halive); cbn [fst].
  intros Hb; rewrite Hb; unfold bounce.
  assert (E1 : Py.lt (x (pos (moved 500 c tape))) (inject_Z (left b)) = false).
  { apply lt_false; rewrite Hmx.
    apply Qle_trans with (inject_Z 120); [|discriminate].
    rewrite <- Zle_Qle; lia. }
  assert (E2 : Py.gt (x (pos (moved 500 c tape))) (inject_Z (right b)) = true).
  { apply gt_true; rewrite Hmx, Hright; reflexivity. }
  rewrite E1, E2; cbn [pos set_pos set_direction direction x].
  rewrite Hmd, Hright; split; reflexivity.
Qed.

End RightWall.

(** ** The properties on concrete creeps *)

Section Scenarios.

#[local] Existing Instance Demo.backend.

(** *** Lifecycle *)

(** C1.  The state does not only move forward.  The creep of the scenario
    is alive after its first frame and exploding after five hits; a sixth
    hit, two frames into the explosion, starts the explosion again from
    elapsed time 0; the explosion over, the creep is DEAD and killed; one
    more hit on the dead creep puts it back in state EXPLODING. *)
Theorem click_restarts_explosion_and_revives_dead :
  state Demo.roaming = ALIVE /\
  state Demo.exploding = EXPLODING /\
  option_map elapsed_ms
    (explode_animation (updates [(100, []); (100, [])] Demo.exploding))
    = Some 200 /\
  state Demo.hit_again = EXPLODING /\
  option_map elapsed_ms (explode_animation Demo.hit_again) = Some 0 /\
  state Demo.dead = DEAD /\
  killed Demo.dead = true /\
  state Demo.revived = EXPLODING /\
  is_alive Demo.dead = false /\
  is_alive Demo.revived = true.
Proof. vm_compute; repeat split. Qed.

(** C9 fails as stated: the update whose time step ends the animation
    leaves the creep EXPLODING and not killed; the creep dies in the update
    after it. *)
Lemma explosion_end_is_noticed_one_update_late :
  let c := Demo.ending in
  let c' := fst (run (update 100 c) []) in
  state c = EXPLODING /\
  option_map active (explode_animation c) = Some true /\
  option_map active (explode_animation c') = Some false /\
  state c' <> DEAD /\
  killed c' = false /\
  state (fst (run (update 100 c') [])) = DEAD.
Proof. vm_compute; repeat split; discriminate. Qed.

Lemma exploding_update_follows_animation_witness :
  exists a,
    state Demo.exploding = EXPLODING /\
    explode_animation Demo.exploding = Some a /\
    active a = true /\
    state (fst (run (update 100 Demo.exploding) [])) = EXPLODING.
Proof.
  assert (Hst : state Demo.exploding = EXPLODING) by (vm_compute; reflexivity).
  assert (Ha : exists a, explode_animation Demo.exploding = Some a /\
                         active a = true)
    by (vm_compute; eexists; split; reflexivity).
  destruct Ha as (a & Ha & Hact).
  exists a; split; [exact Hst|]; split; [exact Ha|]; split; [exact Hact|].
  exact (proj1 (proj2 (proj1
    (exploding_update_follows_animation 100 Demo.exploding a [] Hst Ha)
    Hact))).
Defined.

Lemma update_alive_keeps_health_and_state_witness :
  state Demo.roaming = ALIVE /\
  state (fst (run (update 20 Demo.roaming) [450; 1])) = ALIVE /\
  health (fst (run (update 20 Demo.roaming) [450; 1])) = 15.
Proof.
  assert (Hst : state Demo.roaming = ALIVE) by (vm_compute; reflexivity).
  assert (Hh : health Demo.roaming = 15) by (vm_compute; reflexivity).
  split; [exact Hst|]; rewrite <- Hh.
  exact (proj2 (proj1
    (update_alive_keeps_health_and_state 20 Demo.roaming [450; 1] Hst))).
Defined.

(** *** Walls *)



Lemma bounce_one_axis_x_first_witness :
  let m := moved 40 Demo.cornered [] in
  let b := bounds_rect 40 Demo.cornered [] in
  let c' := fst (run (update 40 Demo.cornered) []) in
  state Demo.cornered = ALIVE /\
  (inject_Z (left b) <= x (pos m))%Q /\
  (inject_Z (right b) < x (pos m))%Q /\
  (inject_Z (bottom b) < y (pos m))%Q /\
  pos c' = Vec2d (inject_Z (right b)) (y (pos m)) /\
  direction c' = Vec2d (x (direction m) * (-1))%Q (y (direction m)).
Proof.
  cbv zeta.
  assert (Hl : (inject_Z (left (bounds_rect 40 Demo.cornered []))
                <= x (pos (moved 40 Demo.cornered [])))%Q)
    by (vm_compute; discriminate).
  assert (Hr : (inject_Z (right (bounds_rect 40 Demo.cornered []))
                < x (pos (moved 40 Demo.cornered [])))%Q)
    by (vm_compute; reflexivity).
  assert (Hst : state Demo.cornered = ALIVE) by (vm_compute; reflexivity).
  split; [exact Hst|]; split; [exact Hl|]; split; [exact Hr|].
  split; [vm_compute; reflexivity|].
  exact (proj1 (proj2 (bounce_one_axis_x_first 40 Demo.cornered [] Hst))
           Hl Hr).
Defined.

(** C8 fails as stated: with the threshold drawn at 400 and the turn at
    +1 the heading is turned by 45 degrees before the move; the creep
    advances by less than 25 px, stops short of the right edge at 120, and
    keeps a positive [heading.x]. *)
Lemma turning_creep_stops_short_of_the_wall :
  let c := Demo.near_wall in
  let c' := fst (run (update 500 c) [400; 1]) in
  let b := inflate (field c') (- get_width (image c')) (- get_height (image c')) in
  state c = ALIVE /\
  pos c = Vec2d 100 100 /\
  direction c = Vec2d 1 0 /\
  speed c = (5 # 100)%Q /\
  right (inflate (field c) (- get_width (image c)) (- get_height (image c))) = 120 /\
  right b = 120 /\
  ~ (x (pos c') - x (pos c) == 25)%Q /\
  ~ (x (pos c') == 120)%Q /\
  ~ (x (direction c') == -1)%Q.
Proof. vm_compute; repeat split; discriminate. Qed.

Lemma update_clamps_at_right_edge_witness :
  let c := Demo.near_wall in
  let c' := fst (run (update 500 c) [500]) in
  let b := inflate (field c') (- get_width (image c')) (- get_height (image c')) in
  state c = ALIVE /\
  pos c = Vec2d 100 100 /\
  direction c = Vec2d 1 0 /\
  (speed c == 5 # 100)%Q /\
  direction (run (_change_direction 500 c) [500]) = Vec2d 1 0 /\
  right b = 120 /\
  left b <= right b /\
  x (pos c') = 120%Q /\
  direction c' = Vec2d (-1) 0.
Proof.
  cbv zeta.
  assert (Hleft :
    let c' := fst (run (update 500 Demo.near_wall) [500]) in
    let b := inflate (field c') (- get_width (image c'))
               (- get_height (image c')) in
    left b <= right b) by (vm_compute; discriminate).
  assert (Hst : state Demo.near_wall = ALIVE) by (vm_compute; reflexivity).
  assert (Hpos : pos Demo.near_wall = Vec2d 100 100)
    by (vm_compute; reflexivity).
  assert (Hdir : direction Demo.near_wall = Vec2d 1 0)
    by (vm_compute; reflexivity).
  assert (Hspeed : (speed Demo.near_wall == 5 # 100)%Q)
    by (vm_compute; reflexivity).
  assert (Hkept : direction (run (_change_direction 500 Demo.near_wall) [500])
                  = Vec2d 1 0) by (vm_compute; reflexivity).
  assert (Hright :
    let c' := fst (run (update 500 Demo.near_wall) [500]) in
    let b := inflate (field c') (- get_width (image c'))
               (- get_height (image c')) in
    right b = 120) by (vm_compute; reflexivity).
  split; [exact Hst|]; split; [exact Hpos|]; split; [exact Hdir|].
  split; [exact Hspeed|]; split; [exact Hkept|]; split; [exact Hright|].
  split; [exact Hleft|].
  exact (proj2 (proj2
    (update_clamps_at_right_edge Demo.near_wall [500]
       Hst Hpos Hdir Hspeed Hkept Hright Hleft))).
Defined.

(** *** Clicks *)

Lemma hit_lowers_health_and_explodes_at_zero_witness :
  _point_is_inside (101, 100) Demo.roaming = Return true /\
  health (fst (mouse_click_event (101, 100) false Demo.roaming)) = 12.
Proof.
  assert (Hhit : _point_is_inside (101, 100) Demo.roaming = Return true)
    by (vm_compute; reflexivity).
  assert (Hh : Z.max 0 (health Demo.roaming - 3) = 12)
    by (vm_compute; reflexivity).
  split; [exact Hhit|]; rewrite <- Hh.
  exact (proj1
    (hit_lowers_health_and_explodes_at_zero (101, 100) Demo.roaming Hhit)).
Defined.

Lemma point_outside_sprite_is_a_miss_witness :
  image_w Demo.roaming = Some 20 /\
  image_h Demo.roaming = Some 20 /\
  outside_pixels (image Demo.roaming) (sprite_local (0, 0) Demo.roaming 20 20) /\
  _point_is_inside (0, 0) Demo.roaming = Return false.
Proof.
  assert (Hout : outside_pixels (image Demo.roaming)
                   (sprite_local (0, 0) Demo.roaming 20 20))
    by (left; vm_compute; reflexivity).
  assert (Hw : image_w Demo.roaming = Some 20) by (vm_compute; reflexivity).
  assert (Hh : image_h Demo.roaming = Some 20) by (vm_compute; reflexivity).
  assert (Hfx : fits_c_int (fst (sprite_local (0, 0) Demo.roaming 20 20)))
    by (vm_compute; split; [discriminate | reflexivity]).
  assert (Hfy : fits_c_int (snd (sprite_local (0, 0) Demo.roaming 20 20)))
    by (vm_compute; split; [discriminate | reflexivity]).
  split; [exact Hw|]; split; [exact Hh|]; split; [exact Hout|].
  exact (proj1
    (proj1 (point_outside_sprite_is_a_miss (0, 0) Demo.roaming 20 20 Hw Hh
              Hfx Hfy)
       Hout)).
Defined.

(** C6.  The hit test does raise.  A creep that was constructed and not yet
    updated has no [image_w]: the hit test reads it before its [try], and
    for a point outside the sprite it raises [AttributeError] where C6
    promises a miss; [mouse_click_event] lets the exception through. *)
Theorem hit_test_raises_before_first_update :
  reachable Demo.fresh /\
  image_w Demo.fresh = None /\
  outside_pixels (image Demo.fresh)
    (sprite_local (0, 0) Demo.fresh (get_width (image Demo.fresh))
       (get_height (image Demo.fresh))) /\
  _point_is_inside (0, 0) Demo.fresh = Raise AttributeError /\
  snd (mouse_click_event (0, 0) false Demo.fresh) = Raise AttributeError /\
  _point_is_inside (0, 0) Demo.fresh <> Return false.
Proof.
  split; [unfold Demo.fresh, Demo.new_creep; apply reachable_init|].
  split; [vm_compute; reflexivity|].
  split; [left; vm_compute; reflexivity|].
  split; [vm_compute; reflexivity|].
  split; [vm_compute; reflexivity|].
  vm_compute; discriminate.
Qed.

(** *** Heading change *)

Lemma heading_change_policy_witness :
  400 <= 450 <= 500 /\
  _counter Demo.roaming + 500 = 520 /\
  (prob (fun ds _ => first_draw_is 450 ds)
     (law (_change_direction 500 Demo.roaming)) == 1 # 101)%Q /\
  (prob (fun ds _ => draws_are 450 1 ds)
     (law (_change_direction 500 Demo.roaming)) == (1 # 101) * (1 # 3))%Q.
Proof.
  assert (Hthr : 400 <= 450 <= 500) by lia.
  assert (Hk : -1 <= 1 <= 1) by lia.
  assert (Hex : 450 < _counter Demo.roaming + 500)
    by (vm_compute; reflexivity).
  split; [exact Hthr|]; split; [vm_compute; reflexivity|]; split.
  - exact (proj1 (proj2 (proj2 (heading_change_policy 500 Demo.roaming)))
             450 Hthr).
  - exact (proj1
      (proj1 (proj2 (proj2 (proj2 (heading_change_policy 500 Demo.roaming))))
         450 1 Hthr Hex Hk)).
Defined.

End Scenarios.

(** * Further properties *)

(** ** What each call leaves alone *)

Section Frames.

Context {backend : Backend}.

(** The five ways an [update] goes. *)
Lemma update_cases (dt : Z) (c : Creep) (tape : list Z) :
  let out := run (update dt c) tape in
  (state c = ALIVE /\
   out = (bounce (bounds_rect dt c tape) (moved dt c tape), Return tt)) \/
  (state c = EXPLODING /\ explode_animation c = None /\
   out = (c, Raise AttributeError)) \/
  (state c = EXPLODING /\ exists a,
     explode_animation c = Some a /\ active a = true /\
     out = (set_explode_animation (anim_update a dt) c, Return tt)) \/
  (state c = EXPLODING /\ exists a,
     explode_animation c = Some a /\ active a = false /\
     out = (kill (set_state DEAD c), Return tt)) \/
  (state c = DEAD /\ out = (c, Return tt)).
Proof.
  cbv zeta; destruct (state c) eqn:Hst.
  - left; split; [reflexivity | apply run_update_ALIVE; exact Hst].
  - right; unfold update; rewrite Hst.
    destruct (explode_animation c) as [a|] eqn:Ha.
    + destruct (active a) eqn:Hact.
      * right; left; split; [reflexivity|]; exists a; auto.
      * right; right; left; split; [reflexivity|]; exists a; auto.
    + left; auto.
  - right; right; right; right; split; [reflexivity|].
    apply dead_update_noop; exact Hst.
Qed.

(** The three ways a click goes: nothing happens; the health drops by 3
    and stays positive; the health drops to 0 and the creep explodes. *)
Lemma click_cases (point : Z * Z) (is_paused : bool) (c : Creep) :
  let c' := fst (mouse_click_event point is_paused c) in
  c' = c \/
  (3 < health c /\ is_paused = false /\ _point_is_inside point c = Return true /\
   c' = set_health (health c - 3) c) \/
  (health c <= 3 /\ is_paused = false /\ _point_is_inside point c = Return true /\
   c' = fst (_explode (set_health 0 c))).
Proof.
  cbv zeta; unfold mouse_click_event.
  destruct (_point_is_inside point c) as [[|]|e]; [|left; reflexivity..].
  unfold _decrease_health; destruct is_paused; cbn [negb];
    [left; reflexivity|].
  cbn [health set_health].
  destruct (Z.max 0 (health c - 3) =? 0) eqn:E.
  - apply Z.eqb_eq in E; right; right.
    rewrite E; repeat split; lia.
  - apply Z.eqb_neq in E; right; left.
    replace (Z.max 0 (health c - 3)) with (health c - 3) by lia.
    repeat split; lia.
Qed.

Lemma explode_cases (c : Creep) :
  (explosion_images c = [] /\ _explode c = (set_state EXPLODING c, Raise IndexError)) \/
  (exists a, explosion_images c <> [] /\
     _explode c = (set_explode_animation a (set_state EXPLODING c), Return tt)).
Proof.
  unfold _explode; cbn [explosion_images set_state].
  destruct (explosion_images c) as [|first rest] eqn:E; [left; auto|].
  right; eexists; split; [discriminate | reflexivity].
Qed.

Lemma alive_update_fields (dt : Z) (c : Creep) (tape : list Z) :
  let c' := bounce (bounds_rect dt c tape) (moved dt c tape) in
  speed c' = speed c /\ field c' = field c /\ base_image c' = base_image c /\
  explosion_images c' = explosion_images c.
Proof.
  cbv zeta; unfold bounce, bounds_rect, moved.
  rewrite run_change_direction.
  destruct (_counter c + dt >? threshold_drawn tape);
    repeat match goal with
           | |- context [if ?b then _ else _] => destruct b
           end; repeat split.
Qed.

Lemma click_frame (point : Z * Z) (is_paused : bool) (c : Creep) :
  let c' := fst (mouse_click_event point is_paused c) in
  pos c' = pos c /\ direction c' = direction c /\ image c' = image c /\
  image_w c' = image_w c /\ image_h c' = image_h c /\
  _counter c' = _counter c /\ speed c' = speed c /\ field c' = field c /\
  base_image c' = base_image c /\ explosion_images c' = explosion_images c /\
  killed c' = killed c.
Proof.
  destruct (click_cases point is_paused c) as [H | [(_ & _ & _ & H) | (_ & _ & _ & H)]];
    cbv zeta; rewrite H; clear H; [repeat split.. |].
  destruct (explode_cases (set_health 0 c)) as [[_ H] | [a [_ H]]];
    rewrite H; repeat split.
Qed.

(** X6.  A click never moves a creep: the position, the heading, the sprite
    and its recorded size, the turn timer, the speed, the field, the images
    and the group membership are as before, whatever the point, the pause
    flag and the outcome of the call. *)
Theorem click_never_moves_the_creep (point : Z * Z) (is_paused : bool) (c : Creep) :
  let c' := fst (mouse_click_event point is_paused c) in
  pos c' = pos c /\ direction c' = direction c /\ image c' = image c /\
  image_w c' = image_w c /\ image_h c' = image_h c /\
  _counter c' = _counter c /\ speed c' = speed c /\ field c' = field c /\
  base_image c' = base_image c /\ explosion_images c' = explosion_images c /\
  killed c' = killed c.
Proof. exact (click_frame point is_paused c). Qed.

Lemma update_frame (dt : Z) (c : Creep) (tape : list Z) :
  let c' := fst (run (update dt c) tape) in
  (health c' = health c /\ speed c' = speed c /\ field c' = field c /\
   base_image c' = base_image c /\ explosion_images c' = explosion_images c) /\
  (state c <> ALIVE ->
   pos c' = pos c /\ direction c' = direction c /\ image c' = image c /\
   image_w c' = image_w c /\ image_h c' = image_h c /\
   _counter c' = _counter c).
Proof.
  destruct (update_cases dt c tape)
    as [[Hst H] | [(Hst & _ & H) | [(Hst & a & _ & _ & H)
        | [(Hst & a & _ & _ & H) | [Hst H]]]]];
    cbv zeta; rewrite H; cbn [fst].
  - split; [|intros Hne; contradiction].
    destruct (alive_update_fields dt c tape) as (Hs & Hf & Hb & He).
    destruct (alive_update_frame dt c tape Hst) as (_ & _ & Hh).
    rewrite H in Hh; cbn [fst] in Hh.
    repeat split; assumption.
  - split; [repeat split | intros _; repeat split].
  - split; [repeat split | intros _; repeat split].
  - split; [repeat split | intros _; repeat split].
  - split; [repeat split | intros _; repeat split].
Qed.

(** X7.  [update] never changes the health, the speed, the field or the
    images, in any state; and it moves living creeps only: on a creep that
    is EXPLODING or DEAD the position, the heading, the sprite and the turn
    timer stay as they are. *)
Theorem update_moves_only_the_living (dt : Z) (c : Creep) (tape : list Z) :
  let c' := fst (run (update dt c) tape) in
  (health c' = health c /\ speed c' = speed c /\ field c' = field c /\
   base_image c' = base_image c /\ explosion_images c' = explosion_images c) /\
  (state c <> ALIVE ->
   pos c' = pos c /\ direction c' = direction c /\ image c' = image c /\
   image_w c' = image_w c /\ image_h c' = image_h c /\
   _counter c' = _counter c).
Proof. exact (update_frame dt c tape). Qed.

End Frames.

(** ** Invariants of a creep *)

Section Invariants.

Context {backend : Backend}.

Lemma creep_inv_init (creep_image : Surface) (explosion_images : list Surface)
    (field : Rect) (init_position init_direction : vec2d) (speed : Q) :
  creep_inv (Creep_init creep_image explosion_images field
               init_position init_direction speed).
Proof.
  unfold creep_inv, Creep_init; cbn.
  split; [exists 5; lia|].
  split; [split; [lia | reflexivity]|].
  split; [discriminate|].
  split; [left; split; reflexivity|].
  split; [intros _ Hne; contradiction | reflexivity].
Qed.

Lemma creep_inv_update (dt : Z) (c : Creep) (tape : list Z) :
  creep_inv c -> creep_inv (fst (run (update dt c) tape)).
Proof.
  intros (Hh & Hal & Hdead & Hsize & Hanim & Hfresh).
  destruct (update_cases dt c tape)
    as [[Hst H] | [(Hst & _ & H) | [(Hst & a & Ha & _ & H)
        | [(Hst & a & Ha & _ & H) | [Hst H]]]]];
    cbv zeta in H.
  - destruct (alive_update_frame dt c tape Hst) as (_ & Hst' & Hh').
    destruct (bounds_rect_of_sprite dt c tape Hst) as (Hw' & Hh2' & _).
    cbv zeta in Hw', Hh2'.
    unfold creep_inv; rewrite Hst', Hh'.
    split; [exact Hh|].
    split; [split; [intros _; apply Hal; exact Hst | reflexivity]|].
    split; [discriminate|]; split; [right; split; assumption|].
    split; [intros _ Hne; contradiction | reflexivity].
  - rewrite H; cbn [fst]; repeat split; try assumption; apply Hal.
  - rewrite H; cbn [fst]; unfold creep_inv.
    cbn [health state killed image image_w image_h explosion_images
         explode_animation set_explode_animation].
    split; [exact Hh|]; split; [exact Hal|]; split; [exact Hdead|].
    split; [exact Hsize|]; split; [discriminate | exact Hfresh].
  - rewrite H; cbn [fst]; unfold creep_inv.
    cbn [health state killed image image_w image_h explosion_images
         explode_animation set_state kill].
    split; [exact Hh|].
    split; [split; [discriminate|]; intros Hpos; apply Hal in Hpos; congruence|].
    split; [reflexivity|]; split; [exact Hsize|].
    split; [intros Hne _; apply Hanim; [exact Hne | congruence]|].
    intros Hw; apply Hfresh in Hw; congruence.
  - rewrite H; cbn [fst]; repeat split; try assumption; apply Hal.
Qed.

Lemma hit_test_needs_size (point : Z * Z) (c : Creep) (b : bool) :
  _point_is_inside point c = Return b -> image_w c <> None.
Proof.
  unfold _point_is_inside; destruct (image_w c); [discriminate|].
  discriminate.
Qed.

Lemma creep_inv_click (point : Z * Z) (is_paused : bool) (c : Creep) :
  creep_inv c -> creep_inv (fst (mouse_click_event point is_paused c)).
Proof.
  intros (Hh & Hal & Hdead & Hsize & Hanim & Hfresh).
  destruct (click_cases point is_paused c)
    as [H | [(Hgt & _ & Hhit & H) | (Hle & _ & Hhit & H)]];
    cbv zeta in H; rewrite H; clear H.
  - repeat split; try assumption; apply Hal.
  - unfold creep_inv.
    cbn [health state killed image image_w image_h explosion_images
         explode_animation set_health].
    destruct Hh as (n & Hn & Hh).
    split; [exists (n - 1); lia|].
    split; [split; [lia | intros _; apply Hal; lia]|].
    split; [exact Hdead|]; split; [exact Hsize|].
    split; [exact Hanim | exact Hfresh].
  - apply hit_test_needs_size in Hhit.
    destruct (explode_cases (set_health 0 c)) as [[He H] | [a [He H]]];
      rewrite H; cbn [fst]; unfold creep_inv;
      cbn [health state killed image image_w image_h explosion_images
           explode_animation set_health set_state set_explode_animation].
    + split; [exists 0; lia|].
      split; [split; [discriminate | lia]|].
      split; [discriminate|]; split; [exact Hsize|].
      split; [intros Hne _; exfalso; apply Hne; exact He|].
      intros Hw; contradiction.
    + split; [exists 0; lia|].
      split; [split; [discriminate | lia]|].
      split; [discriminate|]; split; [exact Hsize|].
      split; [discriminate | intros Hw; contradiction].
Qed.

Lemma get_at_raises_IndexError (s : Surface) (p : Z * Z) (e : exn) :
  get_at s p = Raise e -> e = IndexError.
Proof.
  destruct p as [px py]; unfold get_at.
  destruct ((0 <=? px) && (px <? get_width s) && (0 <=? py)
            && (py <? get_height s)); [discriminate|].
  intros H; injection H as <-; reflexivity.
Qed.

Lemma reachable_inv (c : Creep) : reachable c -> creep_inv c.
Proof.
  induction 1 as [|c k _ IH]; [apply creep_inv_init|].
  destruct k as [dt tape | point is_paused]; cbn [call].
  - apply creep_inv_update; exact IH.
  - apply creep_inv_click; exact IH.
Qed.

(** X1.  Whatever calls a creep has received since it was constructed, its
    health is one of 0, 3, 6, 9, 12, 15, and no further call raises it. *)
Theorem health_steps_down_from_15 (c : Creep) :
  reachable c ->
  (exists n, 0 <= n <= 5 /\ health c = 3 * n) /\
  forall k, health (fst (call k c)) <= health c.
Proof.
  intros Hr; destruct (reachable_inv c Hr) as (Hh & _).
  split; [exact Hh|].
  intros [dt tape | point is_paused]; cbn [call].
  - destruct (update_frame dt c tape) as [(H & _) _].
    rewrite H; lia.
  - destruct Hh as (n & Hn & Hh).
    destruct (click_cases point is_paused c)
      as [H | [(_ & _ & _ & H) | (_ & _ & _ & H)]];
      cbv zeta in H; rewrite H; clear H.
    + lia.
    + cbn [health set_health]; lia.
    + destruct (explode_cases (set_health 0 c)) as [[_ H] | [a [_ H]]];
        rewrite H; cbn [fst health set_health set_state set_explode_animation];
        lia.
Qed.

(** X2.  Whatever calls a creep has received, it is in state ALIVE exactly
    while its health is positive: a creep with health 0 is EXPLODING or
    DEAD, and a creep that is EXPLODING or DEAD has health 0. *)
Theorem alive_exactly_while_health_positive (c : Creep) :
  reachable c ->
  (state c = ALIVE <-> 0 < health c) /\
  (state c <> ALIVE <-> health c = 0).
Proof.
  intros Hr; destruct (reachable_inv c Hr) as ((n & Hn & Hh) & Hal & _).
  split; [exact Hal|].
  split.
  - intros Hne; destruct (Z.eq_dec (health c) 0) as [|Hpos]; [assumption|].
    exfalso; apply Hne, Hal; lia.
  - intros H0 Hst; apply Hal in Hst; lia.
Qed.

(** X3.  Whatever calls a creep has received, if it is DEAD then
    [Sprite.kill()] was called on it, and [is_alive] answers False for it
    and for no other creep. *)
Theorem dead_creeps_were_killed (c : Creep) :
  reachable c ->
  (state c = DEAD -> killed c = true) /\
  (is_alive c = false <-> state c = DEAD).
Proof.
  intros Hr; destruct (reachable_inv c Hr) as (_ & _ & Hdead & _).
  split; [exact Hdead|].
  unfold is_alive; destruct (state c); split; congruence.
Qed.

Lemma reachable_calls_return (c : Creep) :
  reachable c ->
  explosion_images c <> [] ->
  (forall dt tape, snd (run (update dt c) tape) = Return tt) /\
  (image_w c <> None ->
   (forall point is_paused,
      snd (mouse_click_event point is_paused c) = Return tt) /\
   exists commands, draw c = Return commands).
Proof.
  intros Hr Hne; destruct (reachable_inv c Hr) as (_ & Hal & _ & Hsize & Hanim & _).
  split.
  - intros dt tape.
    destruct (update_cases dt c tape)
      as [[Hst H] | [(Hst & Hnone & H) | [(Hst & a & _ & _ & H)
          | [(Hst & a & _ & _ & H) | [Hst H]]]]];
      cbv zeta in H; rewrite H; try reflexivity.
    exfalso; apply (Hanim Hne); [congruence | exact Hnone].
  - intros Hw.
    destruct Hsize as [[Hw' _] | [Hw' Hh']]; [contradiction|].
    split.
    + intros point is_paused; unfold mouse_click_event.
      assert (Hhit : exists b, _point_is_inside point c = Return b).
      { unfold _point_is_inside; rewrite Hw', Hh'.
        destruct (get_at (image c) _) as [pix|e] eqn:Hget; [eauto|].
        rewrite (get_at_raises_IndexError _ _ _ Hget); eauto. }
      destruct Hhit as [[|] Hhit]; rewrite Hhit; [|reflexivity].
      unfold _decrease_health; destruct is_paused; cbn [negb]; [reflexivity|].
      cbn [health set_health].
      destruct (Z.max 0 (health c - 3) =? 0); [|reflexivity].
      destruct (explode_cases (set_health (Z.max 0 (health c - 3)) c))
        as [[He _] | [a [_ H]]]; [contradiction | rewrite H; reflexivity].
    + unfold draw, draw_rect; rewrite Hw', Hh'.
      destruct (state c) eqn:Hst; [eauto | | eauto].
      destruct (explode_animation c) as [a|] eqn:Ha; [eauto|].
      exfalso; apply (Hanim Hne); [discriminate | reflexivity].
Qed.


(** X5.  Whatever calls a creep has received, a point that passes its hit
    test lies in the rectangle the sprite is drawn in. *)
Theorem hit_lies_in_draw_rect (c : Creep) (point : Z * Z) :
  reachable c ->
  _point_is_inside point c = Return true ->
  exists r, draw_rect c = Return r /\ collidepoint r point = true.
Proof.
  intros Hr Hhit; destruct (reachable_inv c Hr) as (_ & _ & _ & Hsize & _).
  unfold _point_is_inside in Hhit; unfold draw_rect.
  destruct Hsize as [[Hw Hh] | [Hw Hh]]; rewrite Hw in Hhit;
    [discriminate|]; rewrite Hh in Hhit; rewrite Hw, Hh.
  eexists; split; [reflexivity|].
  unfold get_at in Hhit.
  destruct ((0 <=? fst point - _) && (fst point - _ <? get_width (image c))
            && (0 <=? snd point - _)
            && (snd point - _ <? get_height (image c))) eqn:Hin;
    [|discriminate].
  apply andb_true_iff in Hin; destruct Hin as [Hin H4].
  apply andb_true_iff in Hin; destruct Hin as [Hin H3].
  apply andb_true_iff in Hin; destruct Hin as [H1 H2].
  apply Z.leb_le in H1, H3; apply Z.ltb_lt in H2, H4.
  unfold collidepoint, right, bottom; cbn [left top width height].
  repeat (apply andb_true_iff; split);
    first [apply Z.leb_le | apply Z.ltb_lt]; lia.
Qed.

(** X8.  The wall test keeps the length of the heading: after an ALIVE
    update the heading has the squared length that the heading-change step
    left it with, and, when that step drew a threshold that the timer does
    not exceed, the squared length it had before the update. *)
Theorem update_keeps_heading_length (dt : Z) (c : Creep) (tape : list Z) :
  state c = ALIVE ->
  let c' := fst (run (update dt c) tape) in
  (norm2 (direction c') == norm2 (direction (run (_change_direction dt c) tape)))%Q /\
  (_counter c + dt <= threshold_drawn tape ->
   (norm2 (direction c') == norm2 (direction c))%Q).
Proof.
  intros Hst c'.
  assert (H : (norm2 (direction c')
               == norm2 (direction (run (_change_direction dt c) tape)))%Q).
  { subst c'; rewrite (run_update_ALIVE dt c tape Hst); cbn [fst].
    destruct (advance_frame dt (run (_change_direction dt c) tape))
      as (_ & _ & Hd & _).
    fold (moved dt c tape) in Hd; rewrite <- Hd.
    unfold bounce, norm2.
    repeat match goal with
           | |- context [if ?b then _ else _] => destruct b
           end; cbn [direction set_direction set_pos x y]; ring. }
  split; [exact H|].
  intros Hle; rewrite H, (heading_kept_below_threshold dt c tape Hle).
  reflexivity.
Qed.

End Invariants.

(** ** Drawing *)

Section Drawing.

Context {backend : Backend}.


End Drawing.

(** *** The background *)

Lemma in_range (n k : Z) : In k (range n) <-> 0 <= k < n.
Proof. unfold range; rewrite in_zrange; lia. Qed.

Lemma in_tile_rects (tile_w tile_h nrows ncols : Z) (r : Rect) :
  In r (tile_rects tile_w tile_h nrows ncols) <->
  exists row col, 0 <= row < nrows /\ 0 <= col < ncols /\
                  r = mkRect (col * tile_w) (row * tile_h) tile_w tile_h.
Proof.
  unfold tile_rects; rewrite in_flat_map; split.
  - intros (row & Hrow & Hin); apply in_map_iff in Hin.
    destruct Hin as (col & Heq & Hcol).
    apply in_range in Hrow, Hcol; exists row, col; auto.
  - intros (row & col & Hrow & Hcol & Heq); exists row.
    split; [apply in_range; exact Hrow|].
    apply in_map_iff; exists col; split; [auto | apply in_range; exact Hcol].
Qed.

(** A tile holds a pixel exactly when its column and row are the
    quotients of the pixel's coordinates by the tile size. *)
Lemma tile_holds_pixel (tile_w tile_h row col px py : Z) :
  0 < tile_w -> 0 < tile_h ->
  collidepoint (mkRect (col * tile_w) (row * tile_h) tile_w tile_h) (px, py)
  = true <-> col = px / tile_w /\ row = py / tile_h.
Proof.
  intros Hw Hh; unfold collidepoint, right, bottom.
  cbn [left top width height fst snd].
  rewrite !andb_true_iff, !Z.leb_le, !Z.ltb_lt.
  pose proof (Z.div_mod px tile_w ltac:(lia)) as Hx.
  pose proof (Z.mod_pos_bound px tile_w Hw) as Hxm.
  pose proof (Z.div_mod py tile_h ltac:(lia)) as Hy.
  pose proof (Z.mod_pos_bound py tile_h Hh) as Hym.
  split.
  - intros (((H1 & H2) & H3) & H4); split.
    + apply (Z.div_unique px tile_w col (px - col * tile_w)); lia.
    + apply (Z.div_unique py tile_h row (py - row * tile_h)); lia.
  - intros [-> ->]; nia.
Qed.

(** X10.  With a tile that is not empty, [draw_background] blits the tile so
    that every pixel of the screen lies in exactly one blitted tile, then
    draws the black rim, 4 wide around the field, and the field box over
    it. *)
Theorem background_tiles_cover_the_screen (screen_w screen_h : Z)
    (tile_img : Surface) (field_rect : Rect) :
  0 < get_width tile_img ->
  0 < get_height tile_img ->
  exists tiles,
    draw_background screen_w screen_h tile_img field_rect
    = Commands
        (map (Blit tile_img) tiles
         ++ [DrawRect black
               (mkRect (left field_rect - 4) (top field_rect - 4)
                       (width field_rect + 8) (height field_rect + 8));
             DrawRect (109, 41, 1, 255) field_rect]) /\
    forall px py, 0 <= px < screen_w -> 0 <= py < screen_h ->
      exists r, In r tiles /\ collidepoint r (px, py) = true /\
        forall r', In r' tiles -> collidepoint r' (px, py) = true -> r' = r.
Proof.
  intros Hw Hh; unfold draw_background; cbn [width height].
  replace (get_height tile_img =? 0) with false by (symmetry; apply Z.eqb_neq; lia).
  replace (get_width tile_img =? 0) with false by (symmetry; apply Z.eqb_neq; lia).
  eexists; split; [reflexivity|].
  intros px py Hpx Hpy.
  set (w := get_width tile_img) in *; set (h := get_height tile_img) in *.
  exists (mkRect (px / w * w) (py / h * h) w h).
  split; [|split].
  - apply in_tile_rects; exists (py / h), (px / w); unfold Py.int_div.
    pose proof (Z.div_pos px w ltac:(lia) Hw).
    pose proof (Z.div_pos py h ltac:(lia) Hh).
    pose proof (Z.div_le_mono px screen_w w Hw ltac:(lia)).
    pose proof (Z.div_le_mono py screen_h h Hh ltac:(lia)).
    repeat split; lia.
  - apply tile_holds_pixel; auto.
  - intros r' Hin Hcol; apply in_tile_rects in Hin.
    destruct Hin as (row & col & _ & _ & ->).
    apply tile_holds_pixel in Hcol; [|assumption..].
    destruct Hcol as [-> ->]; reflexivity.
Qed.

(** X11.  [draw_background] divides the screen size by the tile size: it
    stops with [ZeroDivisionError], nothing drawn, exactly when the tile has
    width 0 or height 0. *)
Theorem background_needs_a_tile (screen_w screen_h : Z)
    (tile_img : Surface) (field_rect : Rect) :
  draw_background screen_w screen_h tile_img field_rect = ZeroDivisionError
  <-> get_width tile_img = 0 \/ get_height tile_img = 0.
Proof.
  unfold draw_background; cbn [width height].
  destruct (get_height tile_img =? 0) eqn:Eh;
    [apply Z.eqb_eq in Eh; split; auto|].
  destruct (get_width tile_img =? 0) eqn:Ew;
    [apply Z.eqb_eq in Ew; split; auto|].
  apply Z.eqb_neq in Eh, Ew; split; [discriminate | lia].
Qed.

(** ** The game loop *)

Lemma run_rbind {A B} (r : Rand A) (f : A -> Rand B) (tape : list Z) :
  exists tape', run (rbind r f) tape = run (f (run r tape)) tape'.
Proof.
  revert tape; induction r as [a | lo hi k IH]; intros tape; cbn [rbind run].
  - exists tape; reflexivity.
  - apply IH.
Qed.

Lemma click_each_length (pos : Z * Z) (is_paused : bool) (group : list Creep) :
  length (fst (click_each pos is_paused group)) = length group.
Proof.
  induction group as [|c group IH]; [reflexivity|].
  cbn [click_each].
  destruct (mouse_click_event pos is_paused c) as [c' [[]|e]]; [|reflexivity].
  destruct (click_each pos is_paused group) as [group' r].
  cbn [fst length] in *; rewrite IH; reflexivity.
Qed.

(** What holds of every creep of a group and is kept by a click holds of
    every creep after the clicks. *)
Lemma click_each_Forall (P : Creep -> Prop) (pos : Z * Z) (is_paused : bool)
    (group : list Creep) :
  (forall c, P c -> P (fst (mouse_click_event pos is_paused c))) ->
  Forall P group -> Forall P (fst (click_each pos is_paused group)).
Proof.
  intros Hkeep; induction 1 as [|c group Hc Hall IH]; [constructor|].
  cbn [click_each].
  pose proof (Hkeep c Hc) as Hc'.
  destruct (mouse_click_event pos is_paused c) as [c' [[]|e]]; cbn [fst] in Hc'.
  - destruct (click_each pos is_paused group) as [group' r].
    cbn [fst] in *; constructor; assumption.
  - cbn [fst]; constructor; assumption.
Qed.

Lemma click_each_returns (pos : Z * Z) (is_paused : bool) (group : list Creep) :
  Forall (fun c => snd (mouse_click_event pos is_paused c) = Return tt) group ->
  snd (click_each pos is_paused group) = Return tt.
Proof.
  induction 1 as [|c group Hc Hall IH]; [reflexivity|].
  cbn [click_each].
  destruct (mouse_click_event pos is_paused c) as [c' [[]|e]];
    cbn [snd] in Hc; [|discriminate].
  destruct (click_each pos is_paused group) as [group' r]; exact IH.
Qed.

Lemma click_each_paused (pos : Z * Z) (group : list Creep) :
  fst (click_each pos true group) = group.
Proof.
  induction group as [|c group IH]; [reflexivity|].
  cbn [click_each].
  assert (Hc : fst (mouse_click_event pos true c) = c).
  { destruct (click_cases pos true c) as [H | [(_ & Hp & _) | (_ & Hp & _)]];
      [exact H | discriminate..]. }
  destruct (mouse_click_event pos true c) as [c' [[]|e]]; cbn [fst] in Hc;
    subst c'; [|reflexivity].
  destruct (click_each pos true group) as [group' r]; cbn [fst] in *.
  rewrite IH; reflexivity.
Qed.

(** The event loop keeps the clock, and keeps in the group what every click
    keeps. *)
Lemma handle_events_keeps (P : Creep -> Prop) (events : list Event) (g : Game) :
  (forall pos is_paused c, P c -> P (fst (mouse_click_event pos is_paused c))) ->
  Forall P (creeps g) ->
  let g' := fst (handle_events events g) in
  Forall P (creeps g') /\ length (creeps g') = length (creeps g) /\
  cumulative_time g' = cumulative_time g /\ last_time g' = last_time g.
Proof.
  intros Hkeep; revert g; induction events as [|event events IH];
    intros g Hall; cbv zeta; [cbn; auto|].
  destruct event as [|[|]|[|] mouse_pos|]; cbn [handle_events].
  - cbn [fst]; auto.
  - apply (IH (mkGame (creeps g) (negb (paused g)) (cumulative_time g)
                 (last_time g))); exact Hall.
  - apply IH; exact Hall.
  - pose proof (click_each_Forall P mouse_pos (paused g) (creeps g)
                  (Hkeep mouse_pos (paused g)) Hall) as Hall'.
    pose proof (click_each_length mouse_pos (paused g) (creeps g)) as Hlen.
    destruct (click_each mouse_pos (paused g) (creeps g)) as [group [[]|e]];
      cbn [fst] in Hall', Hlen.
    + destruct (IH (mkGame group (paused g) (cumulative_time g) (last_time g))
                  Hall') as (H1 & H2 & H3 & H4).
      cbn [creeps cumulative_time last_time] in H2, H3, H4.
      repeat split; [exact H1 | congruence | exact H3 | exact H4].
    + cbn [fst creeps cumulative_time last_time]; auto.
  - apply IH; exact Hall.
  - apply IH; exact Hall.
Qed.

(** With creeps on which no click raises, the event loop ends normally or
    on a QUIT event. *)
Lemma handle_events_returns (Q : Creep -> Prop) (events : list Event) (g : Game) :
  (forall pos is_paused c, Q c -> Q (fst (mouse_click_event pos is_paused c))) ->
  (forall pos is_paused c, Q c ->
     snd (mouse_click_event pos is_paused c) = Return tt) ->
  Forall Q (creeps g) ->
  snd (handle_events events g) = None \/
  (snd (handle_events events g) = Some SystemExit /\ In QUIT events).
Proof.
  intros Hkeep Hret; revert g; induction events as [|event events IH];
    intros g Hall; [left; reflexivity|].
  assert (Hrest : forall g', Forall Q (creeps g') ->
            snd (handle_events events g') = None \/
            (snd (handle_events events g') = Some SystemExit /\
             In QUIT (event :: events))).
  { intros g' Hall'; destruct (IH g' Hall') as [H | [H Hin]];
      [left; exact H | right; split; [exact H | right; exact Hin]]. }
  destruct event as [|[|]|[|] mouse_pos|]; cbn [handle_events].
  - right; split; [reflexivity | left; reflexivity].
  - apply Hrest; exact Hall.
  - apply Hrest; exact Hall.
  - pose proof (click_each_Forall Q mouse_pos (paused g) (creeps g)
                  (Hkeep mouse_pos (paused g)) Hall) as Hall'.
    assert (Hr : snd (click_each mouse_pos (paused g) (creeps g)) = Return tt).
    { apply click_each_returns.
      apply Forall_forall; intros c Hc; apply Hret.
      exact (proj1 (Forall_forall Q (creeps g)) Hall c Hc). }
    destruct (click_each mouse_pos (paused g) (creeps g)) as [group [[]|e]];
      cbn [fst snd] in Hall', Hr; [|discriminate].
    apply Hrest; exact Hall'.
  - apply Hrest; exact Hall.
  - apply Hrest; exact Hall.
Qed.

Lemma handle_events_quiet (events : list Event) (g : Game) :
  forallb quiet events = true -> handle_events events g = (g, None).
Proof.
  revert g; induction events as [|event events IH]; intros g Hq;
    [reflexivity|].
  cbn [forallb] in Hq; apply andb_true_iff in Hq; destruct Hq as [He Hq].
  destruct event as [|[|]|[|] mouse_pos|]; cbn [quiet] in He;
    try discriminate; cbn [handle_events]; apply IH; exact Hq.
Qed.

Lemma handle_events_paused (events : list Event) (g : Game) :
  paused g = true ->
  ~ In (KEYDOWN K_SPACE) events ->
  let g' := fst (handle_events events g) in
  creeps g' = creeps g /\ paused g' = true.
Proof.
  revert g; induction events as [|event events IH]; intros g Hp Hno;
    cbv zeta; [cbn; auto|].
  assert (Hno' : ~ In (KEYDOWN K_SPACE) events)
    by (intros Hin; apply Hno; right; exact Hin).
  destruct event as [|[|]|[|] mouse_pos|]; cbn [handle_events].
  - cbn [fst]; auto.
  - exfalso; apply Hno; left; reflexivity.
  - apply IH; assumption.
  - pose proof (click_each_paused mouse_pos (creeps g)) as Hsame.
    rewrite Hp.
    destruct (click_each mouse_pos true (creeps g)) as [group [[]|e]];
      cbn [fst] in Hsame; subst group.
    + destruct (IH (mkGame (creeps g) true (cumulative_time g) (last_time g))
                  eq_refl Hno') as [H1 H2].
      cbn [creeps] in H1; split; assumption.
    + cbn [fst creeps paused]; auto.
  - apply IH; assumption.
  - apply IH; assumption.
Qed.

Lemma sprites_length (group : list Creep) :
  (length (sprites group) <= length group)%nat.
Proof. apply filter_length_le. Qed.

Section GameProperties.

Context {backend : Backend}.

Lemma update_each_length (dt : Z) (tapes : list (list Z)) (group : list Creep) :
  length (fst (update_each dt tapes group)) = length group.
Proof.
  revert tapes; induction group as [|c group IH]; intros tapes; [reflexivity|].
  cbn [update_each].
  destruct (run (update dt c) (hd [] tapes)) as [c' [[]|e]]; [|reflexivity].
  destruct (draw c') as [cmds|e]; [|reflexivity].
  specialize (IH (tl tapes)).
  destruct (update_each dt (tl tapes) group) as [group' r].
  cbn [fst length] in *; rewrite IH; reflexivity.
Qed.

Lemma update_each_Forall (P : Creep -> Prop) (dt : Z) (tapes : list (list Z))
    (group : list Creep) :
  (forall tape c, P c -> P (fst (run (update dt c) tape))) ->
  Forall P group -> Forall P (fst (update_each dt tapes group)).
Proof.
  intros Hkeep Hall; revert tapes.
  induction Hall as [|c group Hc Hall IH]; intros tapes; [constructor|].
  cbn [update_each].
  pose proof (Hkeep (hd [] tapes) c Hc) as Hc'.
  destruct (run (update dt c) (hd [] tapes)) as [c' [[]|e]]; cbn [fst] in Hc'.
  - destruct (draw c') as [cmds|e]; [|constructor; assumption].
    specialize (IH (tl tapes)).
    destruct (update_each dt (tl tapes) group) as [group' r].
    cbn [fst] in *; constructor; assumption.
  - cbn [fst]; constructor; assumption.
Qed.

(** When no call raises, every creep of the group was updated. *)
Lemma update_each_all (P Q : Creep -> Prop) (dt : Z) (tapes : list (list Z))
    (group : list Creep) :
  snd (update_each dt tapes group) = Return tt ->
  (forall tape c, P c -> Q (fst (run (update dt c) tape))) ->
  Forall P group -> Forall Q (fst (update_each dt tapes group)).
Proof.
  intros Hret Hstep Hall; revert tapes Hret.
  induction Hall as [|c group Hc Hall IH]; intros tapes Hret; [constructor|].
  cbn [update_each] in *.
  pose proof (Hstep (hd [] tapes) c Hc) as Hc'.
  destruct (run (update dt c) (hd [] tapes)) as [c' [[]|e]];
    cbn [fst snd] in *; [|discriminate].
  destruct (draw c') as [cmds|e]; cbn [snd] in Hret; [|discriminate].
  specialize (IH (tl tapes)).
  destruct (update_each dt (tl tapes) group) as [group' r].
  cbn [fst snd] in *; constructor; [exact Hc' | apply IH; exact Hret].
Qed.

Lemma update_each_returns (dt : Z) (tapes : list (list Z)) (group : list Creep) :
  Forall (fun c => forall tape,
            snd (run (update dt c) tape) = Return tt /\
            exists cmds, draw (fst (run (update dt c) tape)) = Return cmds)
         group ->
  snd (update_each dt tapes group) = Return tt.
Proof.
  intros Hall; revert tapes.
  induction Hall as [|c group Hc Hall IH]; intros tapes; [reflexivity|].
  cbn [update_each].
  destruct (Hc (hd [] tapes)) as [Hr [cmds Hd]].
  destruct (run (update dt c) (hd [] tapes)) as [c' [[]|e]];
    cbn [fst snd] in Hr, Hd; [|discriminate].
  rewrite Hd.
  specialize (IH (tl tapes)).
  destruct (update_each dt (tl tapes) group) as [group' r]; exact IH.
Qed.

Lemma playable_click (pos : Z * Z) (is_paused : bool) (c : Creep) :
  playable c -> playable (fst (mouse_click_event pos is_paused c)).
Proof.
  intros [Hr Hne]; split.
  - exact (reachable_call c (Click pos is_paused) Hr).
  - destruct (click_frame pos is_paused c)
      as (_ & _ & _ & _ & _ & _ & _ & _ & _ & He & _).
    cbv zeta in He; rewrite He; exact Hne.
Qed.

Lemma playable_update (dt : Z) (tape : list Z) (c : Creep) :
  playable c -> playable (fst (run (update dt c) tape)).
Proof.
  intros [Hr Hne]; split.
  - exact (reachable_call c (Update dt tape) Hr).
  - destruct (update_frame dt c tape) as [(_ & _ & _ & _ & He) _].
    cbv zeta in He; rewrite He; exact Hne.
Qed.

(** After an [update] the sprite size is recorded: the living creep just
    recorded it, and a creep that left ALIVE was hit, which needs the
    size. *)
Lemma sized_after_update (dt : Z) (tape : list Z) (c : Creep) :
  reachable c -> image_w (fst (run (update dt c) tape)) <> None.
Proof.
  intros Hr; destruct (state c) eqn:Hst.
  - destruct (bounds_rect_of_sprite dt c tape Hst) as (Hw & _).
    cbv zeta in Hw; rewrite Hw; discriminate.
  - destruct (reachable_inv c Hr) as (_ & _ & _ & _ & _ & Hfresh).
    destruct (update_frame dt c tape) as [_ H].
    destruct H as (_ & _ & _ & Hw & _); [congruence|].
    cbv zeta in Hw; rewrite Hw; intros Hnone; apply Hfresh in Hnone.
    congruence.
  - rewrite (dead_update_noop dt c tape Hst); cbn [fst].
    destruct (reachable_inv c Hr) as (_ & _ & _ & _ & _ & Hfresh).
    intros Hnone; apply Hfresh in Hnone; congruence.
Qed.

Lemma in_group_click (pos : Z * Z) (is_paused : bool) (c : Creep) :
  in_group c -> in_group (fst (mouse_click_event pos is_paused c)).
Proof.
  intros (Hr & Hne & Hk & Hst).
  destruct (playable_click pos is_paused c (conj Hr Hne)) as [Hr' Hne'].
  destruct (click_frame pos is_paused c)
    as (_ & _ & _ & _ & _ & _ & _ & _ & _ & _ & Hk').
  cbv zeta in Hk'.
  repeat split; [exact Hr' | exact Hne' | congruence |].
  destruct (click_state_step pos is_paused c) as [H | H]; cbv zeta in H;
    rewrite H; [exact Hst | discriminate].
Qed.

Lemma sized_click (pos : Z * Z) (is_paused : bool) (c : Creep) :
  image_w c <> None -> image_w (fst (mouse_click_event pos is_paused c)) <> None.
Proof.
  destruct (click_frame pos is_paused c) as (_ & _ & _ & Hw & _).
  cbv zeta in Hw; rewrite Hw; auto.
Qed.

(** The sprites left in the group after the updates. *)
Lemma sprites_in_group (P : Creep -> Prop) (group : list Creep) :
  Forall (fun c => playable c /\ P c) group ->
  Forall (fun c => in_group c /\ P c) (sprites group).
Proof.
  intros Hall; apply Forall_forall; intros c Hin.
  apply filter_In in Hin; destruct Hin as [Hin Hk].
  apply negb_true_iff in Hk.
  destruct (proj1 (Forall_forall _ group) Hall c Hin) as [[Hr Hne] HP].
  split; [|exact HP].
  repeat split; [exact Hr | exact Hne | exact Hk |].
  destruct (reachable_inv c Hr) as (_ & _ & Hdead & _).
  intros Hst; apply Hdead in Hst; congruence.
Qed.

Lemma clocked_fields (dt : Z) (g : Game) :
  creeps (clocked dt g) = creeps g /\ paused (clocked dt g) = paused g /\
  cumulative_time (clocked dt g) = cumulative_time g + dt /\
  (creeps g = [] -> last_time (clocked dt g) = last_time g) /\
  (creeps g <> [] ->
   last_time (clocked dt g)
   = Some (Py.int_div (cumulative_time g + dt
                       - (cumulative_time g + dt) mod 1000) 1000)).
Proof.
  unfold clocked; cbn [creeps paused cumulative_time last_time].
  destruct (creeps g) as [|c group]; cbn [length].
  - cbn [Z.of_nat Z.eqb creeps paused cumulative_time last_time].
    split; [reflexivity|]; split; [reflexivity|]; split; [reflexivity|].
    split; [reflexivity | intros H; contradiction].
  - replace (Z.of_nat (S (length group)) =? 0) with false
      by (symmetry; apply Z.eqb_neq; lia).
    cbn [creeps paused cumulative_time last_time].
    split; [reflexivity|]; split; [reflexivity|]; split; [reflexivity|].
    split; [intros H; discriminate | reflexivity].
Qed.

(** The ways a frame goes. *)
Lemma frame_cases (tile : Surface) (dt : Z) (events : list Event)
    (tapes : list (list Z)) (g : Game) :
  let g1 := fst (handle_events events (clocked dt g)) in
  let stop1 := snd (handle_events events (clocked dt g)) in
  let out := frame tile dt events tapes g in
  (stop1 <> None /\ out = (g1, stop1)) \/
  (stop1 = None /\ paused g1 = true /\ out = (g1, None)) \/
  (stop1 = None /\ paused g1 = false /\
   (get_width tile = 0 \/ get_height tile = 0) /\
   out = (g1, Some UncaughtZeroDivisionError)) \/
  (stop1 = None /\ paused g1 = false /\
   get_width tile <> 0 /\ get_height tile <> 0 /\ last_time g1 = None /\
   out = (g1, Some UnboundLocalError)) \/
  (stop1 = None /\ paused g1 = false /\
   get_width tile <> 0 /\ get_height tile <> 0 /\ last_time g1 <> None /\
   fst out = mkGame (sprites (fst (update_each dt tapes (creeps g1))))
               (paused g1) (cumulative_time g1) (last_time g1) /\
   snd out = match snd (update_each dt tapes (creeps g1)) with
             | Return _ => None
             | Raise e => Some (Uncaught e)
             end).
Proof.
  cbv zeta; unfold frame; fold (clocked dt g).
  destruct (handle_events events (clocked dt g)) as [g1 [stop|]];
    cbn [fst snd]; [left; split; [discriminate | reflexivity]|].
  right; destruct (paused g1); cbn [negb]; [left; auto|].
  right.
  destruct (draw_background SCREEN_WIDTH SCREEN_HEIGHT tile Demo.FIELD_RECT)
    eqn:Hbg.
  - assert (Hok : get_width tile <> 0 /\ get_height tile <> 0).
    { split; intros H0;
        assert (Hz : draw_background SCREEN_WIDTH SCREEN_HEIGHT tile
                       Demo.FIELD_RECT = ZeroDivisionError)
          by (unfold draw_background; cbn [width height]; rewrite ?H0;
              destruct (get_height tile =? 0); reflexivity);
        congruence. }
    destruct Hok as [Hw Hh]; right.
    destruct (last_time g1) as [t|]; [right | left; repeat split; auto].
    repeat split; try assumption; try discriminate;
      destruct (update_each dt tapes (creeps g1)) as [group [[]|e]];
      reflexivity.
  - left; repeat split.
    unfold draw_background in Hbg; cbn [width height] in Hbg.
    destruct (get_height tile =? 0) eqn:Eh; [apply Z.eqb_eq in Eh; auto|].
    destruct (get_width tile =? 0) eqn:Ew; [apply Z.eqb_eq in Ew; auto|].
    discriminate.
Qed.

End GameProperties.

Section GameTheorems.

Context {backend : Backend}.

(** X12.  A frame that starts paused and sees no press on the space bar
    leaves every creep of the group exactly as it was, whatever clicks it
    delivers and however it ends; the game stays paused and the clock
    advances by the frame time. *)
Theorem paused_frame_freezes_the_creeps (tile : Surface) (dt : Z)
    (events : list Event) (tapes : list (list Z)) (g : Game) :
  paused g = true ->
  ~ In (KEYDOWN K_SPACE) events ->
  let g' := fst (frame tile dt events tapes g) in
  creeps g' = creeps g /\ paused g' = true /\
  cumulative_time g' = cumulative_time g + dt.
Proof.
  intros Hp Hno g'.
  destruct (clocked_fields dt g) as (Hc & Hp1 & Ht & _).
  destruct (handle_events_paused events (clocked dt g)
              ltac:(rewrite Hp1; exact Hp) Hno) as [Hc' Hp'].
  destruct (handle_events_keeps (fun _ => True) events (clocked dt g)
              ltac:(auto) ltac:(apply Forall_forall; auto))
    as (_ & _ & Ht' & _).
  cbv zeta in Hc', Hp', Ht'.
  assert (Hout : g' = fst (handle_events events (clocked dt g))).
  { subst g'.
    destruct (frame_cases tile dt events tapes g)
      as [[_ H] | [(_ & _ & H) | [(_ & Hf & _) | [(_ & Hf & _) | (_ & Hf & _)]]]].
    - cbv zeta in H; rewrite H; reflexivity.
    - cbv zeta in H; rewrite H; reflexivity.
    - cbv zeta in Hf; congruence.
    - cbv zeta in Hf; congruence.
    - cbv zeta in Hf; congruence. }
  rewrite Hout, Hc', Hp', Ht', Hc, Ht; auto.
Qed.

(** X13.  A frame adds its time to the running total.  While the group holds
    a creep at the start of the frame the displayed time is the total in
    whole seconds, rounded down; with an empty group the displayed time is
    left as it was: the clock stops when the last creep is gone. *)
Theorem clock_counts_whole_seconds (tile : Surface) (dt : Z)
    (events : list Event) (tapes : list (list Z)) (g : Game) :
  let g' := fst (frame tile dt events tapes g) in
  cumulative_time g' = cumulative_time g + dt /\
  (creeps g <> [] ->
   exists t, last_time g' = Some t /\
             1000 * t <= cumulative_time g' < 1000 * t + 1000) /\
  (creeps g = [] -> last_time g' = last_time g).
Proof.
  intros g'.
  destruct (clocked_fields dt g) as (_ & _ & Ht & Hempty & Hsome).
  destruct (handle_events_keeps (fun _ => True) events (clocked dt g)
              ltac:(auto) ltac:(apply Forall_forall; auto))
    as (_ & _ & Ht' & Hl').
  cbv zeta in Ht', Hl'.
  assert (Hout : cumulative_time g'
                 = cumulative_time (fst (handle_events events (clocked dt g))) /\
                 last_time g'
                 = last_time (fst (handle_events events (clocked dt g)))).
  { subst g'.
    destruct (frame_cases tile dt events tapes g)
      as [[_ H] | [(_ & _ & H) | [(_ & _ & _ & H) | [(_ & _ & _ & _ & _ & H)
          | (_ & _ & _ & _ & _ & H & _)]]]];
      cbv zeta in H; rewrite H; split; reflexivity. }
  destruct Hout as [Hoc Hol]; rewrite Hoc, Hol, Ht', Hl', Ht.
  split; [reflexivity|]; split.
  - intros Hne; rewrite (Hsome Hne); eexists; split; [reflexivity|].
    unfold Py.int_div.
    pose proof (Z.div_mod (cumulative_time g + dt) 1000 ltac:(lia)) as Hdm.
    replace (cumulative_time g + dt - (cumulative_time g + dt) mod 1000)
      with ((cumulative_time g + dt) / 1000 * 1000) by lia.
    rewrite Z.div_mul by lia.
    pose proof (Z.mod_pos_bound (cumulative_time g + dt) 1000 ltac:(lia)).
    lia.
  - exact Hempty.
Qed.

(** X14.  The group holds no dead creep.  If every creep of the group came
    from the constructor through calls, has explosion frames, was not
    killed and is not DEAD, the same holds after a frame, however the frame
    ends; and the group does not grow.  So the game loop never clicks a
    dead creep. *)
Theorem group_holds_no_dead_creep (tile : Surface) (dt : Z)
    (events : list Event) (tapes : list (list Z)) (g : Game) :
  Forall in_group (creeps g) ->
  let g' := fst (frame tile dt events tapes g) in
  Forall in_group (creeps g') /\
  (length (creeps g') <= length (creeps g))%nat.
Proof.
  intros Hall g'.
  destruct (clocked_fields dt g) as (Hc & _).
  destruct (handle_events_keeps in_group events (clocked dt g)
              in_group_click ltac:(rewrite Hc; exact Hall))
    as (Hall1 & Hlen1 & _).
  cbv zeta in Hall1, Hlen1; rewrite Hc in Hlen1.
  subst g'.
  destruct (frame_cases tile dt events tapes g)
    as [[_ H] | [(_ & _ & H) | [(_ & _ & _ & H) | [(_ & _ & _ & _ & _ & H)
        | (_ & _ & _ & _ & _ & H & _)]]]];
    cbv zeta in H; rewrite H; cbn [fst creeps];
    try (split; [exact Hall1 | lia]).
  split.
  - assert (Hp : Forall (fun c => playable c /\ True)
                   (fst (update_each dt tapes
                      (creeps (fst (handle_events events (clocked dt g))))))).
    { apply update_each_Forall.
      - intros tape c [Hpc _]; split; [apply playable_update; exact Hpc | exact I].
      - eapply Forall_impl; [|exact Hall1].
        intros c (Hr & Hne & _); split; [split; assumption | exact I]. }
    apply sprites_in_group in Hp.
    eapply Forall_impl; [|exact Hp]; intros c [Hc' _]; exact Hc'.
  - pose proof (sprites_length (fst (update_each dt tapes
                  (creeps (fst (handle_events events (clocked dt g))))))) as Hs.
    rewrite update_each_length in Hs; lia.
Qed.

(** X15.  Once every creep of the group has been updated and the clock
    shows a time, a frame with a tile that is not empty ends normally or
    on a QUIT event, never on an exception; and the game is again in that
    condition after the frame. *)
Theorem settled_game_stops_only_on_quit (tile : Surface) (dt : Z)
    (events : list Event) (tapes : list (list Z)) (g : Game) :
  settled g ->
  get_width tile <> 0 ->
  get_height tile <> 0 ->
  settled (fst (frame tile dt events tapes g)) /\
  (snd (frame tile dt events tapes g) = None \/
   (snd (frame tile dt events tapes g) = Some SystemExit /\ In QUIT events)).
Proof.
  intros [Hall Hlast] Hw Hh.
  set (Q := fun c : Creep => in_group c /\ image_w c <> None) in *.
  assert (HQclick : forall pos is_paused c,
            Q c -> Q (fst (mouse_click_event pos is_paused c))).
  { intros pos is_paused c [Hg Hs]; split;
      [apply in_group_click; exact Hg | apply sized_click; exact Hs]. }
  assert (HQret : forall pos is_paused c,
            Q c -> snd (mouse_click_event pos is_paused c) = Return tt).
  { intros pos is_paused c [(Hr & Hne & _) Hs].
    apply (reachable_calls_return c Hr Hne); exact Hs. }
  destruct (clocked_fields dt g) as (Hc & _ & _ & Hempty & Hsome).
  destruct (handle_events_keeps Q events (clocked dt g) HQclick
              ltac:(rewrite Hc; exact Hall)) as (Hall1 & _ & _ & Hl1).
  cbv zeta in Hall1, Hl1.
  assert (Hlast1 : last_time (fst (handle_events events (clocked dt g))) <> None).
  { rewrite Hl1; destruct (creeps g) as [|c0 group] eqn:Hg.
    - rewrite Hempty by reflexivity; exact Hlast.
    - rewrite Hsome by discriminate; discriminate. }
  pose proof (handle_events_returns Q events (clocked dt g) HQclick HQret
                ltac:(rewrite Hc; exact Hall)) as Hstop.
  destruct (frame_cases tile dt events tapes g)
    as [[Hs H] | [(Hs & _ & H) | [(_ & _ & [H0 | H0] & _)
        | [(_ & _ & _ & _ & Hnone & _) | (Hs & _ & _ & _ & _ & Hf & Hr)]]]];
    cbv zeta in *; try contradiction.
  - rewrite H; cbn [fst snd]; split; [split; assumption | exact Hstop].
  - rewrite H; cbn [fst snd]; split; [split; assumption | left; reflexivity].
  - assert (Hret : snd (update_each dt tapes
                     (creeps (fst (handle_events events (clocked dt g)))))
                   = Return tt).
    { apply update_each_returns.
      eapply Forall_impl; [|exact Hall1].
      intros c [(Hrc & Hne & _) _] tape; split.
      - apply (reachable_calls_return c Hrc Hne).
      - destruct (playable_update dt tape c (conj Hrc Hne)) as [Hrc' Hne'].
        apply (reachable_calls_return _ Hrc' Hne').
        apply sized_after_update; exact Hrc. }
    rewrite Hr, Hret; split; [|left; reflexivity].
    rewrite Hf; split; cbn [creeps last_time]; [|exact Hlast1].
    apply (sprites_in_group (fun c => image_w c <> None)).
    apply update_each_Forall.
    + intros tape c [Hpc _]; split;
        [apply playable_update; exact Hpc
        | apply sized_after_update; exact (proj1 Hpc)].
    + eapply Forall_impl; [|exact Hall1].
      intros c [(Hrc & Hne & _) Hsz]; split; [split; assumption | exact Hsz].
Qed.

Lemma quiet_frame_settles (tile : Surface) (dt : Z)
    (events : list Event) (tapes : list (list Z)) (g : Game) :
  Forall in_group (creeps g) ->
  creeps g <> [] ->
  paused g = false ->
  forallb quiet events = true ->
  get_width tile <> 0 ->
  get_height tile <> 0 ->
  snd (frame tile dt events tapes g) = None /\
  settled (fst (frame tile dt events tapes g)).
Proof.
  intros Hall Hne Hp Hq Hw Hh.
  destruct (clocked_fields dt g) as (Hc & Hp1 & _ & _ & Hsome).
  pose proof (handle_events_quiet events (clocked dt g) Hq) as Hev.
  destruct (frame_cases tile dt events tapes g)
    as [[Hs _] | [(_ & Hp' & _) | [(_ & _ & [H0 | H0] & _)
        | [(_ & _ & _ & _ & Hnone & _) | (_ & _ & _ & _ & _ & Hf & Hr)]]]];
    cbv zeta in *.
  - rewrite Hev in Hs; cbn [snd] in Hs; contradiction.
  - rewrite Hev in Hp'; cbn [fst] in Hp'; congruence.
  - contradiction.
  - contradiction.
  - rewrite Hev in Hnone; cbn [fst] in Hnone.
    rewrite Hsome in Hnone by exact Hne; discriminate.
  - rewrite Hev in Hf, Hr; cbn [fst] in Hf, Hr.
    assert (Hret : snd (update_each dt tapes (creeps (clocked dt g)))
                   = Return tt).
    { apply update_each_returns; rewrite Hc.
      eapply Forall_impl; [|exact Hall].
      intros c (Hrc & Hnec & _) tape; split.
      - apply (reachable_calls_return c Hrc Hnec).
      - destruct (playable_update dt tape c (conj Hrc Hnec)) as [Hrc' Hne'].
        apply (reachable_calls_return _ Hrc' Hne').
        apply sized_after_update; exact Hrc. }
    rewrite Hr, Hret; split; [reflexivity|].
    rewrite Hf; split; cbn [creeps last_time];
      [|rewrite Hsome by exact Hne; discriminate].
    apply (sprites_in_group (fun c => image_w c <> None)).
    apply (update_each_all playable); [exact Hret | | rewrite Hc].
    + intros tape c Hpc; split;
        [apply playable_update; exact Hpc
        | apply sized_after_update; exact (proj1 Hpc)].
    + eapply Forall_impl; [|exact Hall].
      intros c (Hrc & Hnec & _); split; assumption.
Qed.

(** X16.  The first frame that is not paused and brings no QUIT, no press
    on the space bar and no click gets the game there: with a group of
    creeps that is not empty and a tile that is not empty, the frame ends
    normally, every creep of the group has its sprite size recorded, and
    the clock shows a time. *)
Theorem quiet_frame_settles_the_game (tile : Surface) (dt : Z)
    (events : list Event) (tapes : list (list Z)) (g : Game) :
  Forall in_group (creeps g) ->
  creeps g <> [] ->
  paused g = false ->
  forallb quiet events = true ->
  get_width tile <> 0 ->
  get_height tile <> 0 ->
  snd (frame tile dt events tapes g) = None /\
  settled (fst (frame tile dt events tapes g)).
Proof. exact (quiet_frame_settles tile dt events tapes g). Qed.

End GameTheorems.

(** ** The start of the game *)

Section GameStart.

Context {backend : Backend}.

(** [choice] answers a member of the sequence. *)
Lemma choice_In {A} (first : A) (rest : list A) (raw : Z) :
  In (nth (Z.to_nat (pick 0 (Z.of_nat (length rest)) raw)) (first :: rest) first)
     (first :: rest).
Proof.
  pose proof (pick_range 0 (Z.of_nat (length rest)) raw ltac:(lia)) as Hi.
  revert Hi; generalize (pick 0 (Z.of_nat (length rest)) raw); intros i Hi.
  apply nth_In; cbn [length]; lia.
Qed.

(** The creep that [spawn_creep] makes of its five draws. *)
Lemma run_spawn_creep (creep_images : Surface * Surface * Surface)
    (frames : list Surface) (tape : list Z) :
  exists creep_image px py dx dy,
    run (spawn_creep creep_images frames) tape
    = Creep_init creep_image frames Demo.FIELD_RECT
        (Vec2d (inject_Z px) (inject_Z py))
        (Vec2d (inject_Z dx) (inject_Z dy)) (5 # 100) /\
    (let '(blue, pink, gray) := creep_images in
     creep_image = blue \/ creep_image = pink \/ creep_image = gray) /\
    50 <= px <= 350 /\ 50 <= py <= 350 /\
    (dx = -1 \/ dx = 1) /\ (dy = -1 \/ dy = 1).
Proof.
  destruct creep_images as [[blue pink] gray].
  unfold spawn_creep, choice, randint; cbn [rbind run].
  do 5 eexists; split; [reflexivity|].
  split; [|split; [|split; [|split]]].
  - pose proof (choice_In blue [pink; gray] (hd 0 tape)) as Hin.
    cbn [In] in Hin; intuition auto.
  - apply pick_range; cbn; lia.
  - apply pick_range; cbn; lia.
  - pose proof (choice_In (-1) [1] (hd 0 (tl (tl (tl tape))))) as Hin.
    cbn [In] in Hin; intuition auto.
  - pose proof (choice_In (-1) [1] (hd 0 (tl (tl (tl (tl tape)))))) as Hin.
    cbn [In] in Hin; intuition auto.
Qed.

(** X17.  Whatever the random draws, a creep made by [run_game] is ALIVE
    with health 15 and speed 0.05, uses one of the three creep images,
    stands at an integer point of the field rectangle, edges included, and
    heads along a diagonal: its heading is the normalized vector of two
    components taken among -1 and 1. *)
Theorem spawned_creep_starts_on_the_field (creep_images : Surface * Surface * Surface)
    (frames : list Surface) (tape : list Z) :
  let c := run (spawn_creep creep_images frames) tape in
  state c = ALIVE /\ health c = 15 /\ (speed c == 5 # 100)%Q /\
  field c = Demo.FIELD_RECT /\ explosion_images c = frames /\
  (let '(blue, pink, gray) := creep_images in
   base_image c = blue \/ base_image c = pink \/ base_image c = gray) /\
  exists px py dx dy,
    pos c = Vec2d (inject_Z px) (inject_Z py) /\
    left Demo.FIELD_RECT <= px <= right Demo.FIELD_RECT /\
    top Demo.FIELD_RECT <= py <= bottom Demo.FIELD_RECT /\
    direction c = normalized (Vec2d (inject_Z dx) (inject_Z dy)) /\
    (dx = -1 \/ dx = 1) /\ (dy = -1 \/ dy = 1).
Proof.
  destruct (run_spawn_creep creep_images frames tape)
    as (img & px & py & dx & dy & Heq & Himg & Hpx & Hpy & Hdx & Hdy).
  cbv zeta; rewrite Heq; unfold Creep_init;
    cbn [state health speed field explosion_images base_image pos direction].
  repeat split; try reflexivity.
  - exact Himg.
  - exists px, py, dx, dy; repeat split; try assumption; cbn; lia.
Qed.

(** The three creeps of a new game. *)
Lemma run_new_game (creep_images : Surface * Surface * Surface)
    (explosion_img : Surface) (tape : list Z) :
  exists tape2 tape3,
    let frames := [explosion_img; transform_rotate explosion_img 90] in
    run (new_game creep_images explosion_img) tape
    = mkGame [run (spawn_creep creep_images frames) tape;
              run (spawn_creep creep_images frames) tape2;
              run (spawn_creep creep_images frames) tape3] false 0 None.
Proof.
  unfold new_game.
  set (frames := [explosion_img; transform_rotate explosion_img 90]).
  set (spawn := spawn_creep creep_images frames).
  destruct (run_rbind spawn
              (fun creep1 =>
                 rbind spawn (fun creep2 =>
                   rbind spawn (fun creep3 =>
                     Done (mkGame [creep1; creep2; creep3] false 0 None))))
              tape) as [tape2 H1].
  destruct (run_rbind spawn
              (fun creep2 =>
                 rbind spawn (fun creep3 =>
                   Done (mkGame [run spawn tape; creep2; creep3] false 0 None)))
              tape2) as [tape3 H2].
  destruct (run_rbind spawn
              (fun creep3 =>
                 Done (mkGame [run spawn tape; run spawn tape2; creep3]
                         false 0 None))
              tape3) as [tape4 H3].
  exists tape2, tape3; cbv zeta.
  rewrite H1, H2, H3; reflexivity.
Qed.

Lemma spawned_in_group (creep_images : Surface * Surface * Surface)
    (frames : list Surface) (tape : list Z) :
  frames <> [] -> in_group (run (spawn_creep creep_images frames) tape).
Proof.
  intros Hne.
  destruct (run_spawn_creep creep_images frames tape)
    as (img & px & py & dx & dy & -> & _).
  repeat split; [apply reachable_init | exact Hne | discriminate].
Qed.

Lemma new_game_in_group (creep_images : Surface * Surface * Surface)
    (explosion_img : Surface) (tape : list Z) :
  Forall in_group (creeps (run (new_game creep_images explosion_img) tape)).
Proof.
  destruct (run_new_game creep_images explosion_img tape) as (t2 & t3 & Hg).
  cbv zeta in Hg; rewrite Hg; cbn [creeps].
  repeat constructor; apply spawned_in_group; discriminate.
Qed.

(** X18.  Whatever the random draws, [run_game] starts with three creeps in
    the group, not paused, at time 0; the first frame without QUIT, space
    bar and click, with a tile that is not empty, ends normally and leaves
    a game that only a QUIT event can stop. *)
Theorem new_game_settles_in_one_frame (creep_images : Surface * Surface * Surface)
    (explosion_img tile : Surface) (tape : list Z) (dt : Z)
    (events : list Event) (tapes : list (list Z)) :
  forallb quiet events = true ->
  get_width tile <> 0 ->
  get_height tile <> 0 ->
  let g := run (new_game creep_images explosion_img) tape in
  length (creeps g) = 3%nat /\ paused g = false /\ cumulative_time g = 0 /\
  snd (frame tile dt events tapes g) = None /\
  settled (fst (frame tile dt events tapes g)).
Proof.
  intros Hq Hw Hh g.
  pose proof (new_game_in_group creep_images explosion_img tape) as Hall.
  destruct (run_new_game creep_images explosion_img tape) as (t2 & t3 & Hg).
  cbv zeta in Hg; fold g in Hg, Hall.
  split; [rewrite Hg; reflexivity|].
  split; [rewrite Hg; reflexivity|].
  split; [rewrite Hg; reflexivity|].
  apply quiet_frame_settles; try assumption.
  - rewrite Hg; discriminate.
  - rewrite Hg; reflexivity.
Qed.

(** X19.  A left click that arrives before the first [update] ends the game:
    the creeps of a new game have no recorded sprite size, the hit test
    raises [AttributeError], and nothing catches it. *)
Theorem click_in_the_first_frame_crashes (creep_images : Surface * Surface * Surface)
    (explosion_img tile : Surface) (tape : list Z) (dt : Z)
    (mouse_pos : Z * Z) (events : list Event) (tapes : list (list Z)) :
  snd (frame tile dt (MOUSEBUTTONDOWN true mouse_pos :: events) tapes
         (run (new_game creep_images explosion_img) tape))
  = Some (Uncaught AttributeError).
Proof.
  destruct (run_new_game creep_images explosion_img tape) as (t2 & t3 & Hg).
  cbv zeta in Hg; rewrite Hg.
  destruct (run_spawn_creep creep_images
              [explosion_img; transform_rotate explosion_img 90] tape)
    as (img & px & py & dx & dy & -> & _).
  unfold frame; cbn [creeps length Z.of_nat Z.eqb paused cumulative_time
                     last_time handle_events click_each].
  rewrite click_before_first_update by reflexivity.
  reflexivity.
Qed.

End GameStart.

(** ** The further properties on concrete creeps and games *)

Section Reachability.

Context {backend : Backend}.

Lemma reachable_update (dt : Z) (tape : list Z) (c : Creep) :
  reachable c -> reachable (fst (run (update dt c) tape)).
Proof. exact (reachable_call c (Update dt tape)). Qed.

Lemma reachable_click (point : Z * Z) (is_paused : bool) (c : Creep) :
  reachable c -> reachable (fst (mouse_click_event point is_paused c)).
Proof. exact (reachable_call c (Click point is_paused)). Qed.

Lemma reachable_updates (steps : list (Z * list Z)) (c : Creep) :
  reachable c -> reachable (updates steps c).
Proof.
  revert c; induction steps as [|[dt tape] steps IH]; intros c Hr;
    [exact Hr|].
  cbn [updates]; apply IH, reachable_update; exact Hr.
Qed.

Lemma reachable_clicks (n : nat) (point : Z * Z) (c : Creep) :
  reachable c -> reachable (clicks n point c).
Proof.
  revert c; induction n as [|n IH]; intros c Hr; [exact Hr|].
  cbn [clicks]; apply IH, reachable_click; exact Hr.
Qed.

End Reachability.

Section MoreScenarios.

#[local] Existing Instance Demo.backend.

Lemma reachable_fresh : reachable Demo.fresh.
Proof. unfold Demo.fresh, Demo.new_creep; apply reachable_init. Qed.

Lemma reachable_roaming : reachable Demo.roaming.
Proof. unfold Demo.roaming; apply reachable_updates; exact reachable_fresh. Qed.

Lemma reachable_exploding : reachable Demo.exploding.
Proof.
  unfold Demo.exploding; apply reachable_clicks; exact reachable_roaming.
Qed.

Lemma reachable_dead : reachable Demo.dead.
Proof.
  unfold Demo.dead; apply reachable_updates.
  unfold Demo.hit_again; apply reachable_click, reachable_updates.
  exact reachable_exploding.
Qed.

Lemma health_steps_down_from_15_witness :
  reachable Demo.roaming /\
  health (fst (call (Click (101, 100) false) Demo.roaming))
  <= health Demo.roaming.
Proof.
  split; [exact reachable_roaming|].
  exact (proj2 (health_steps_down_from_15 Demo.roaming reachable_roaming)
           (Click (101, 100) false)).
Defined.

Lemma alive_exactly_while_health_positive_witness :
  reachable Demo.exploding /\
  (state Demo.exploding <> ALIVE <-> health Demo.exploding = 0).
Proof.
  split; [exact reachable_exploding|].
  exact (proj2 (alive_exactly_while_health_positive Demo.exploding
                  reachable_exploding)).
Defined.

Lemma dead_creeps_were_killed_witness :
  reachable Demo.dead /\ state Demo.dead = DEAD /\ killed Demo.dead = true.
Proof.
  assert (Hst : state Demo.dead = DEAD) by (vm_compute; reflexivity).
  split; [exact reachable_dead|]; split; [exact Hst|].
  exact (proj1 (dead_creeps_were_killed Demo.dead reachable_dead) Hst).
Defined.


Lemma hit_lies_in_draw_rect_witness :
  reachable Demo.roaming /\
  _point_is_inside (101, 100) Demo.roaming = Return true /\
  exists r, draw_rect Demo.roaming = Return r /\
            collidepoint r (101, 100) = true.
Proof.
  assert (Hhit : _point_is_inside (101, 100) Demo.roaming = Return true)
    by (vm_compute; reflexivity).
  split; [exact reachable_roaming|]; split; [exact Hhit|].
  exact (hit_lies_in_draw_rect Demo.roaming (101, 100) reachable_roaming Hhit).
Defined.

Lemma update_moves_only_the_living_witness :
  state Demo.exploding <> ALIVE /\
  pos (fst (run (update 100 Demo.exploding) [])) = pos Demo.exploding.
Proof.
  assert (Hst : state Demo.exploding <> ALIVE) by (vm_compute; discriminate).
  split; [exact Hst|].
  exact (proj1 (proj2 (update_moves_only_the_living 100 Demo.exploding []) Hst)).
Defined.

Lemma update_keeps_heading_length_witness :
  state Demo.cornered = ALIVE /\
  _counter Demo.cornered + 40 <= threshold_drawn [] /\
  (norm2 (direction (fst (run (update 40 Demo.cornered) [])))
   == norm2 (direction Demo.cornered))%Q.
Proof.
  assert (Hst : state Demo.cornered = ALIVE) by (vm_compute; reflexivity).
  assert (Hle : _counter Demo.cornered + 40 <= threshold_drawn [])
    by (vm_compute; discriminate).
  split; [exact Hst|]; split; [exact Hle|].
  exact (proj2 (update_keeps_heading_length 40 Demo.cornered [] Hst) Hle).
Defined.


Lemma background_tiles_cover_the_screen_witness :
  0 < get_width DemoGame.tile /\
  0 < get_height DemoGame.tile /\
  exists tiles,
    draw_background 500 400 DemoGame.tile Demo.FIELD_RECT
    = Commands
        (map (Blit DemoGame.tile) tiles
         ++ [DrawRect black (mkRect (50 - 4) (50 - 4) (300 + 8) (300 + 8));
             DrawRect (109, 41, 1, 255) Demo.FIELD_RECT]) /\
    exists r, In r tiles /\ collidepoint r (499, 399) = true.
Proof.
  assert (Hw : 0 < get_width DemoGame.tile) by (vm_compute; reflexivity).
  assert (Hh : 0 < get_height DemoGame.tile) by (vm_compute; reflexivity).
  split; [exact Hw|]; split; [exact Hh|].
  destruct (background_tiles_cover_the_screen 500 400 DemoGame.tile
              Demo.FIELD_RECT Hw Hh) as (tiles & Heq & Hcover).
  exists tiles; split; [exact Heq|].
  destruct (Hcover 499 399 ltac:(lia) ltac:(lia)) as (r & Hin & Hcol & _).
  exists r; split; assumption.
Defined.

Lemma background_needs_a_tile_witness :
  get_width (Demo.solid 0 64) = 0 /\
  draw_background 500 400 (Demo.solid 0 64) Demo.FIELD_RECT = ZeroDivisionError.
Proof.
  split; [reflexivity|].
  exact (proj2 (background_needs_a_tile 500 400 (Demo.solid 0 64)
                  Demo.FIELD_RECT) (or_introl eq_refl)).
Defined.

Lemma in_group_started : Forall in_group (creeps DemoGame.started).
Proof. unfold DemoGame.started; apply new_game_in_group. Qed.

Lemma settled_first_frame : settled DemoGame.first_frame.
Proof.
  unfold DemoGame.first_frame.
  apply quiet_frame_settles;
    [exact in_group_started
    | vm_compute; first [discriminate | reflexivity]..].
Qed.

Lemma paused_frame_freezes_the_creeps_witness :
  paused DemoGame.halted = true /\
  ~ In (KEYDOWN K_SPACE) [MOUSEBUTTONDOWN true (100, 150)] /\
  creeps (fst (frame DemoGame.tile 20 [MOUSEBUTTONDOWN true (100, 150)] []
                 DemoGame.halted))
  = creeps DemoGame.halted.
Proof.
  assert (Hp : paused DemoGame.halted = true) by (vm_compute; reflexivity).
  assert (Hno : ~ In (KEYDOWN K_SPACE) [MOUSEBUTTONDOWN true (100, 150)])
    by (intros [H | []]; discriminate H).
  split; [exact Hp|]; split; [exact Hno|].
  exact (proj1 (paused_frame_freezes_the_creeps DemoGame.tile 20
                  [MOUSEBUTTONDOWN true (100, 150)] [] DemoGame.halted Hp Hno)).
Defined.

Lemma clock_counts_whole_seconds_witness :
  creeps DemoGame.first_frame <> [] /\
  exists t,
    last_time (fst (frame DemoGame.tile 1015 [] [] DemoGame.first_frame))
    = Some t /\
    1000 * t
    <= cumulative_time (fst (frame DemoGame.tile 1015 [] [] DemoGame.first_frame))
    < 1000 * t + 1000.
Proof.
  assert (Hne : creeps DemoGame.first_frame <> [])
    by (vm_compute; discriminate).
  split; [exact Hne|].
  exact (proj1 (proj2 (clock_counts_whole_seconds DemoGame.tile 1015 [] []
                         DemoGame.first_frame)) Hne).
Defined.

Lemma group_holds_no_dead_creep_witness :
  Forall in_group (creeps DemoGame.started) /\
  Forall in_group
    (creeps (fst (frame DemoGame.tile 20 [MOUSEBUTTONDOWN true (100, 150)] []
                    DemoGame.started))).
Proof.
  split; [exact in_group_started|].
  exact (proj1 (group_holds_no_dead_creep DemoGame.tile 20
                  [MOUSEBUTTONDOWN true (100, 150)] [] DemoGame.started
                  in_group_started)).
Defined.

Lemma settled_game_stops_only_on_quit_witness :
  settled DemoGame.first_frame /\
  get_width DemoGame.tile <> 0 /\
  get_height DemoGame.tile <> 0 /\
  settled (fst (frame DemoGame.tile 20 [MOUSEBUTTONDOWN true (100, 150)] []
                  DemoGame.first_frame)).
Proof.
  assert (Hw : get_width DemoGame.tile <> 0) by (vm_compute; discriminate).
  assert (Hh : get_height DemoGame.tile <> 0) by (vm_compute; discriminate).
  split; [exact settled_first_frame|]; split; [exact Hw|]; split; [exact Hh|].
  exact (proj1 (settled_game_stops_only_on_quit DemoGame.tile 20
                  [MOUSEBUTTONDOWN true (100, 150)] [] DemoGame.first_frame
                  settled_first_frame Hw Hh)).
Defined.

Lemma quiet_frame_settles_the_game_witness :
  Forall in_group (creeps DemoGame.started) /\
  creeps DemoGame.started <> [] /\
  paused DemoGame.started = false /\
  forallb quiet [KEYDOWN K_other] = true /\
  get_width DemoGame.tile <> 0 /\
  get_height DemoGame.tile <> 0 /\
  snd (frame DemoGame.tile 20 [KEYDOWN K_other] [] DemoGame.started) = None.
Proof.
  assert (Hne : creeps DemoGame.started <> []) by (vm_compute; discriminate).
  assert (Hp : paused DemoGame.started = false) by (vm_compute; reflexivity).
  assert (Hq : forallb quiet [KEYDOWN K_other] = true) by reflexivity.
  assert (Hw : get_width DemoGame.tile <> 0) by (vm_compute; discriminate).
  assert (Hh : get_height DemoGame.tile <> 0) by (vm_compute; discriminate).
  split; [exact in_group_started|]; split; [exact Hne|]; split; [exact Hp|].
  split; [exact Hq|]; split; [exact Hw|]; split; [exact Hh|].
  exact (proj1 (quiet_frame_settles_the_game DemoGame.tile 20 [KEYDOWN K_other]
                  [] DemoGame.started in_group_started Hne Hp Hq Hw Hh)).
Defined.

Lemma new_game_settles_in_one_frame_witness :
  forallb quiet [] = true /\
  get_width DemoGame.tile <> 0 /\
  get_height DemoGame.tile <> 0 /\
  settled DemoGame.first_frame.
Proof.
  assert (Hq : forallb quiet [] = true) by reflexivity.
  assert (Hw : get_width DemoGame.tile <> 0) by (vm_compute; discriminate).
  assert (Hh : get_height DemoGame.tile <> 0) by (vm_compute; discriminate).
  split; [exact Hq|]; split; [exact Hw|]; split; [exact Hh|].
  exact (proj2 (proj2 (proj2 (proj2
    (new_game_settles_in_one_frame
       (Demo.solid 20 20, Demo.solid 20 20, Demo.solid 20 20)
       (Demo.solid 30 30) DemoGame.tile
       [0; 100; 150; 1; 1; 1; 60; 300; 0; 1; 2; 335; 335; 1; 1]
       20 [] [] Hq Hw Hh))))).
Defined.

End MoreScenarios.
